(** * Scene session controller: a shallow embedding of [SceneManager]

    The class [SceneManager] of [src/web/static/js/ui-interactions.js] keeps
    two fields, [currentScene] and [selectedObjects], and drives the scene
    REST endpoints with [fetch].  This development embeds its methods as
    Rocq functions over an explicit world (the two fields, the page as the
    script reads it, and the trace of the effects the script performed) and
    states the properties of the scene session over that embedding.

    Conventions of the embedding:
    - a JS [Set] of strings is a duplicate-free list in insertion order,
      which is the order [Array.from] enumerates it in;
    - [null] and [undefined] are both [None] wherever the source only
      tests them for truthiness; where it prints them, as it does the
      [preview_url] of a reply, they are kept apart ([Member]);
    - an [async] method is a resumption: it runs up to its first
      [await fetch(...)], hands the request and its continuation to the
      event loop, and the continuation later runs in the world as it is
      when the response arrives.  [await fetch] together with the
      [await response.json()] that follows it is one suspension;
    - [await] of a call that has already returned does not suspend: only
      a [fetch] gives other handlers the chance to run;
    - [try]/[catch]/[finally] are combinators over resumptions;
    - HTML produced by template literals is kept abstract ([Html]) and
      carries the values the template interpolates;
    - strings are UTF-8, as the literals of this file are: a character is
      one to four bytes, and [trim] strips every character that
      [String.prototype.trim] strips, the white space and the line
      terminators of ECMAScript. *)

From Stdlib Require Import List String Ascii Bool Arith Lia.
From Stdlib Require Import DecimalString.
Import ListNotations.
Open Scope string_scope.

Set Implicit Arguments.

(** ** JavaScript values the methods rely on *)

Module JS.

(** Truthiness of a string: every string but the empty one. *)
Definition truthy (s : string) : bool :=
  match s with
  | EmptyString => false
  | String _ _ => true
  end.

(** Truthiness of a possibly missing string. *)
Definition truthy_opt (o : option string) : bool :=
  match o with
  | Some s => truthy s
  | None => false
  end.

(** [o || d] where [o] is a string, [null] or [undefined]. *)
Definition or_else (o : option string) (d : string) : string :=
  match o with
  | Some s => if truthy s then s else d
  | None => d
  end.

(** The string made of the given bytes. *)
Definition bytes (l : list nat) : string :=
  string_of_list_ascii (map ascii_of_nat l).

(** How many bytes the UTF-8 character that starts with byte [c] has. *)
Definition utf8_length (c : ascii) : nat :=
  let n := nat_of_ascii c in
  if (n <? 192)%nat then 1
  else if (n <? 224)%nat then 2
  else if (n <? 240)%nat then 3
  else 4.

(** The characters of a string, each with all its bytes: [k] bytes of the
    character [cur] are still to come. *)
Fixpoint chars_from (k : nat) (cur : string) (s : string) : list string :=
  match s with
  | EmptyString =>
      match cur with
      | EmptyString => []
      | _ => [cur]
      end
  | String c r =>
      match k with
      | O =>
          let rest := chars_from (pred (utf8_length c)) (String c EmptyString) r in
          match cur with
          | EmptyString => rest
          | _ => cur :: rest
          end
      | S k' => chars_from k' (cur ++ String c EmptyString) r
      end
  end.

Definition chars (s : string) : list string := chars_from 0 EmptyString s.

(** The characters that [String.prototype.trim] strips: the WhiteSpace
    and LineTerminator productions of ECMAScript, that is TAB, LF, VT,
    FF, CR, SPACE, U+00A0, U+1680, U+2000 to U+200A, U+2028, U+2029,
    U+202F, U+205F, U+3000 and U+FEFF, in UTF-8. *)
Definition white_space : list string :=
  map bytes
    [ [9]; [10]; [11]; [12]; [13]; [32];
      [194; 160];
      [225; 154; 128];
      [226; 128; 128]; [226; 128; 129]; [226; 128; 130]; [226; 128; 131];
      [226; 128; 132]; [226; 128; 133]; [226; 128; 134]; [226; 128; 135];
      [226; 128; 136]; [226; 128; 137]; [226; 128; 138];
      [226; 128; 168]; [226; 128; 169];
      [226; 128; 175];
      [226; 129; 159];
      [227; 128; 128];
      [239; 187; 191] ].

Definition is_space (ch : string) : bool := existsb (String.eqb ch) white_space.

Fixpoint trim_start (l : list string) : list string :=
  match l with
  | [] => []
  | ch :: r => if is_space ch then trim_start r else l
  end.

Definition trim_end (l : list string) : list string := rev (trim_start (rev l)).

Definition join (l : list string) : string := fold_right append EmptyString l.

Definition trim (s : string) : string := join (trim_end (trim_start (chars s))).

(** A member of a reply that a template literal prints: missing
    ([undefined]), [null], or a value with the text it prints as. *)
Inductive Member :=
| Undefined
| Null
| Text (s : string).

(** [`${m}`] *)
Definition interpolate (m : Member) : string :=
  match m with
  | Undefined => "undefined"
  | Null => "null"
  | Text s => s
  end.

(** [`${n}`] for a non-negative integer. *)
Definition of_nat (n : nat) : string := NilZero.string_of_uint (Nat.to_uint n).

(** The double quote character, for the messages that quote a name. *)
Definition dquote : string := String (ascii_of_nat 34) EmptyString.

(** A JS [Set] of strings: insertion order, no duplicates. *)
Definition set_has (x : string) (s : list string) : bool :=
  existsb (String.eqb x) s.

Definition set_add (x : string) (s : list string) : list string :=
  if set_has x s then s else s ++ [x].

Definition set_delete (x : string) (s : list string) : list string :=
  filter (fun y => negb (String.eqb x y)) s.

End JS.

(** ** Data model: what the scene API returns *)

Record SceneObject := mkObject {
  id : string;
  obj_name : string;
  object_type : string;
  size : string              (* the JSON number as text: only ever interpolated *)
}.

Record Statistics := mkStatistics {
  export_ready_objects : nat;
  collisions : nat
}.

(** A scene as the API documents it: every member that the display
    template of [updateSceneDisplay] reads is there. *)
Record Scene := mkScene {
  scene_id : string;
  name : string;
  description : string;
  object_count : nat;
  objects : list SceneObject;
  relationships : nat;       (* [scene.relationships.length] *)
  statistics : option Statistics
}.

Record SceneSummary := mkSummary {
  sum_scene_id : string;
  sum_name : string;
  sum_object_count : nat
}.

Record Issue := mkIssue {
  severity : string;
  message : string;
  suggestion : option string;
  auto_fixable : bool
}.

Record ValidationReport := mkValidation {
  is_valid : bool;
  issues : list Issue;
  validation_object_count : nat
}.

Record ExportResult := mkExportResult {
  download_urls : list string;
  filenames : list string;
  exported_object_count : nat;
  format : string;
  total_size : string
}.

(** The body of a response.  Every endpoint answers with an object that
    carries [success] and, depending on the endpoint, one more member; a
    member that the payload does not carry reads as [undefined]. *)
Inductive Payload :=
| NoPayload
| SceneData (s : Scene)
| ScenesData (l : list SceneSummary)
| PreviewData (url : string)
| PreviewNull                       (* [preview_url: null] *)
| ExportedData (r : ExportResult)
| ValidationData (v : ValidationReport).

Record Data := mkData {
  success : bool;
  error : option string;
  payload : Payload
}.

Definition data_scene (d : Data) : option Scene :=
  match payload d with SceneData s => Some s | _ => None end.

Definition data_scenes (d : Data) : option (list SceneSummary) :=
  match payload d with ScenesData l => Some l | _ => None end.

Definition data_preview_url (d : Data) : JS.Member :=
  match payload d with
  | PreviewData u => JS.Text u
  | PreviewNull => JS.Null
  | _ => JS.Undefined
  end.

Definition data_export (d : Data) : option ExportResult :=
  match payload d with ExportedData r => Some r | _ => None end.

Definition data_validation (d : Data) : option ValidationReport :=
  match payload d with ValidationData v => Some v | _ => None end.

(** ** Requests and responses *)

(** The JSON bodies the methods send. *)
Record ExportData := mkExportData {
  export_type : string;
  export_format : string;
  filename : option string;
  object_id : option string;
  object_ids : option (list string);
  combined_file : option bool
}.

Inductive Body :=
| NoBody
| CreateBody (name : string) (description : option string)
| ExportBody (e : ExportData)
| ValidateBody (auto_fix : bool).

Inductive Method := GET | POST.

Record Request := mkRequest {
  method : Method;
  url : string;
  body : Body
}.

(** What [await fetch(...)] followed by [await response.json()] yields:
    either of them throws (the server is unreachable, the body is not
    JSON), or there is a parsed body together with [response.ok]. *)
Inductive FetchResult :=
| Unreachable
| Json (ok : bool) (d : Data).

(** ** The page and the trace of effects *)

Inductive Severity := Error | Success | Info.

Inductive Exn := FetchFailed | TypeError.

Inductive Html :=
| NoSceneSelected
| SceneInfo (s : Scene)
| PreviewImage (src : string)
| SceneOptions (l : list SceneSummary)
| CompleteExportForm (count : nat)
| SelectiveExportForm (count : nat) (names : list string)
| IndividualExportForm (objs : list SceneObject)
| ExportSuccess (r : ExportResult)
| ValidationResults (v : ValidationReport)
| CreateSceneForm
| ObjectPreview (o : SceneObject).

Inductive Effect :=
| Fetch (r : Request)                       (* [fetch(url, init)] *)
| Notify (msg : string) (sev : Severity)    (* [showNotification] appends a banner *)
| ConsoleError (label : string) (e : Exn)   (* [console.error(label, error)] *)
| SetInnerHTML (elt : string) (h : Html)
| SetText (elt : string) (s : string)
| SetDisabled (elt : string) (b : bool)
| SetValue (elt : string) (v : string)
| ShowModal (title : string) (h : Html)     (* [#scene-modal] appended to the body *)
| CloseModal
| ShowLoading (msg : string)                (* [#loading-overlay] appended to the body *)
| HideLoading.

(** The document as [getElementById] reads it: which ids exist, and the
    [value], [checked] and [textContent] members of the elements. *)
Record Document := mkDocument {
  present : string -> bool;
  value : string -> string;
  checked : string -> bool;
  textContent : string -> string
}.

Definition get_value (d : Document) (elt : string) : option string :=
  if present d elt then Some (value d elt) else None.

Definition get_checked (d : Document) (elt : string) : option bool :=
  if present d elt then Some (checked d elt) else None.

Definition set_present (elt : string) (b : bool) (d : Document) : Document :=
  mkDocument (fun e => if String.eqb e elt then b else present d e)
             (value d) (checked d) (textContent d).

Definition set_textContent (elt : string) (s : string) (d : Document) : Document :=
  mkDocument (present d) (value d) (checked d)
             (fun e => if String.eqb e elt then s else textContent d e).

(** What the scene template of [updateSceneDisplay] puts into
    [#scene-display] besides the abstract [SceneInfo]: the preview
    container and, inside it, the generate button with its label as the
    template lays it out. *)
Definition generate_button_label : string :=
  (String (ascii_of_nat 10) (string_of_list_ascii (repeat " "%char 28))
   ++ "Generate Preview"
   ++ String (ascii_of_nat 10) (string_of_list_ascii (repeat " "%char 24)))%string.

Definition scene_template (d : Document) : Document :=
  set_textContent "generate-preview-btn" generate_button_label
    (set_present "generate-preview-btn" true
       (set_present "scene-preview-container" true d)).

(** The "no scene" placeholder replaces the content of [#scene-display]:
    the preview container and the generate button are gone. *)
Definition scene_placeholder (d : Document) : Document :=
  set_present "generate-preview-btn" false
    (set_present "scene-preview-container" false d).

(** In-flight calls that nobody awaits, named by the reply they wait for. *)
Inductive Detached := ScenesListReply.

Record World := mkWorld {
  currentScene : option Scene;
  selectedObjects : list string;
  doc : Document;
  trace : list Effect;          (* oldest first *)
  detached : list Detached
}.

Definition emit (e : Effect) (w : World) : World :=
  mkWorld (currentScene w) (selectedObjects w) (doc w) (trace w ++ [e]) (detached w).

Definition set_currentScene (s : option Scene) (w : World) : World :=
  mkWorld s (selectedObjects w) (doc w) (trace w) (detached w).

Definition set_selectedObjects (l : list string) (w : World) : World :=
  mkWorld (currentScene w) l (doc w) (trace w) (detached w).

Definition set_doc (d : Document) (w : World) : World :=
  mkWorld (currentScene w) (selectedObjects w) d (trace w) (detached w).

Definition detach (d : Detached) (w : World) : World :=
  mkWorld (currentScene w) (selectedObjects w) (doc w) (trace w) (detached w ++ [d]).

(** Views of the trace. *)
Definition fetches_of (t : list Effect) : list Request :=
  flat_map (fun e => match e with Fetch r => [r] | _ => [] end) t.

Definition notifications_of (t : list Effect) : list (string * Severity) :=
  flat_map (fun e => match e with Notify m s => [(m, s)] | _ => [] end) t.

Definition previews_of (t : list Effect) : list string :=
  flat_map (fun e => match e with
                     | SetInnerHTML _ (PreviewImage u) => [u]
                     | _ => []
                     end) t.

Definition modals_of (t : list Effect) : list (string * Html) :=
  flat_map (fun e => match e with ShowModal title h => [(title, h)] | _ => [] end) t.

Definition fetches (w : World) : list Request := fetches_of (trace w).
Definition notifications (w : World) : list (string * Severity) := notifications_of (trace w).
Definition previews (w : World) : list string := previews_of (trace w).
Definition modals (w : World) : list (string * Html) := modals_of (trace w).

(** The page before the script has done anything, over a given document. *)
Definition fresh (d : Document) : World := mkWorld None [] d [] [].

(** ** Asynchronous methods as resumptions *)

Inductive Outcome (A : Type) :=
| Returned (a : A)
| Thrown (e : Exn).

Arguments Thrown {A} e.

(** A call either finishes, or is suspended at [await fetch(req)] with the
    world as it leaves it and the rest of the method, which resumes in the
    world as the response finds it. *)
Inductive Task (A : Type) :=
| Done (w : World) (r : Outcome A)
| Await (w : World) (req : Request) (k : FetchResult -> World -> Task A).

Definition Async (A : Type) := World -> Task A.

Definition ret {A} (a : A) : Async A := fun w => Done w (Returned a).

Definition throw {A} (e : Exn) : Async A := fun w => Done w (Thrown e).

Fixpoint bind_task {A B} (t : Task A) (f : A -> Async B) : Task B :=
  match t with
  | Done w (Returned a) => f a w
  | Done w (Thrown e) => Done w (Thrown e)
  | Await w req k => Await w req (fun resp w' => bind_task (k resp w') f)
  end.

Definition bind {A B} (m : Async A) (f : A -> Async B) : Async B :=
  fun w => bind_task (m w) f.

(** [try { body } catch (error) { handler }] *)
Fixpoint catch_task {A} (t : Task A) (h : Exn -> Async A) : Task A :=
  match t with
  | Done w (Returned a) => Done w (Returned a)
  | Done w (Thrown e) => h e w
  | Await w req k => Await w req (fun resp w' => catch_task (k resp w') h)
  end.

Definition try_catch {A} (m : Async A) (h : Exn -> Async A) : Async A :=
  fun w => catch_task (m w) h.

(** [try { body } finally { cleanup }], for a cleanup that cannot throw. *)
Fixpoint finally_task {A} (t : Task A) (cleanup : World -> World) : Task A :=
  match t with
  | Done w r => Done (cleanup w) r
  | Await w req k => Await w req (fun resp w' => finally_task (k resp w') cleanup)
  end.

Definition try_finally {A} (m : Async A) (cleanup : World -> World) : Async A :=
  fun w => finally_task (m w) cleanup.

(** A synchronous statement that cannot throw. *)
Definition act (f : World -> World) : Async unit := fun w => Done (f w) (Returned tt).

(** Reading the fields or the document. *)
Definition read {A} (f : World -> A) : Async A := fun w => Done w (Returned (f w)).

(** [const response = await fetch(url, init); const data = await response.json()] *)
Definition fetch_json (req : Request) : Async (bool * Data) :=
  fun w => Await (emit (Fetch req) w) req
             (fun resp w' =>
                match resp with
                | Unreachable => Done w' (Thrown FetchFailed)
                | Json ok d => Done w' (Returned (ok, d))
                end).

(** Member access [o.member] where [o] may be [null] or [undefined]. *)
Definition member {A} (o : option A) : Async A :=
  match o with
  | Some a => ret a
  | None => throw TypeError
  end.

Declare Scope async_scope.
Delimit Scope async_scope with async.
Notation "x <- m ;; k" := (bind m (fun x => k))
  (at level 61, m at next level, right associativity) : async_scope.
Notation "' pat <- m ;; k" := (bind m (fun x => match x with pat => k end))
  (at level 61, pat pattern, m at next level, right associativity) : async_scope.
Notation "m ;; k" := (bind m (fun _ => k))
  (at level 61, right associativity) : async_scope.
Open Scope async_scope.

(** The world a call leaves behind when it returns or suspends. *)
Definition world_of {A} (t : Task A) : World :=
  match t with
  | Done w _ => w
  | Await w _ _ => w
  end.

(** How a call ended, when it did: what it returned, or that it threw. *)
Definition outcome_of {A} (t : Task A) : option (Outcome A) :=
  match t with
  | Done _ r => Some r
  | Await _ _ _ => None
  end.

(** The response arrives: the suspended call goes on in world [w]. *)
Definition resume_in {A} (t : Task A) (resp : FetchResult) (w : World) : Task A :=
  match t with
  | Done _ _ => t
  | Await _ _ k => k resp w
  end.

(** The response arrives before anything else happens. *)
Definition resume {A} (t : Task A) (resp : FetchResult) : Task A :=
  resume_in t resp (world_of t).

(** ** The methods of [SceneManager] *)

Module SceneManager.

(** [new SceneManager()] leaves [currentScene = null] and an empty
    [selectedObjects]; that is [fresh]. *)

(** *** Notifications, modal and loading overlay *)

Definition showNotification (msg : string) (type : Severity) : World -> World :=
  emit (Notify msg type).

Definition showError (msg : string) : World -> World := showNotification msg Error.

Definition showSuccess (msg : string) : World -> World := showNotification msg Success.

Definition closeModal (w : World) : World :=
  if present (doc w) "scene-modal"
  then set_doc (set_present "scene-modal" false (doc w)) (emit CloseModal w)
  else w.

Definition showModal (title : string) (content : Html) (w : World) : World :=
  let w1 := closeModal w in
  set_doc (set_present "scene-modal" true (doc w1)) (emit (ShowModal title content) w1).

Definition hideLoading (w : World) : World :=
  if present (doc w) "loading-overlay"
  then set_doc (set_present "loading-overlay" false (doc w)) (emit HideLoading w)
  else w.

Definition showLoading (msg : string) (w : World) : World :=
  let w1 := hideLoading w in
  set_doc (set_present "loading-overlay" true (doc w1)) (emit (ShowLoading msg) w1).

(** [if (element) element.disabled = b] *)
Definition set_disabled (elt : string) (b : bool) (w : World) : World :=
  if present (doc w) elt then emit (SetDisabled elt b) w else w.

Definition set_text (elt : string) (s : string) (w : World) : World :=
  if present (doc w) elt then emit (SetText elt s) w else w.

(** *** Scenes list *)

Definition updateScenesDropdown (scenes : option (list SceneSummary)) : Async unit :=
  has_select <- read (fun w => present (doc w) "scene-select") ;;
  if negb has_select then ret tt
  else
    act (emit (SetInnerHTML "scene-select" (SceneOptions []))) ;;
    l <- member scenes ;;
    act (emit (SetInnerHTML "scene-select" (SceneOptions l))).

Definition loadScenesList : Async unit :=
  try_catch
    ('(_, data) <- fetch_json (mkRequest GET "/api/scenes" NoBody) ;;
     if success data
     then updateScenesDropdown (data_scenes data)
     else act (showError "Failed to load scenes list"))
    (fun e =>
       act (emit (ConsoleError "Failed to load scenes:" e)) ;;
       act (showError "Failed to load scenes list")).

(** [this.loadScenesList()] without [await]: the call runs up to its
    [fetch] and the caller goes on; the reply is handled on its own. *)
Definition loadScenesList_detached : Async unit :=
  fun w =>
    match loadScenesList w with
    | Done w' _ => Done w' (Returned tt)
    | Await w' _ _ => Done (detach ScenesListReply w') (Returned tt)
    end.

(** *** Creating a scene *)

Definition createScene (name : string) (description : option string)
  : Async (option string) :=
  try_catch
    ('(_, data) <- fetch_json
                     (mkRequest POST "/api/scenes" (CreateBody name description)) ;;
     if success data
     then
       act (showSuccess ("Scene " ++ JS.dquote ++ name ++ JS.dquote
                           ++ " created successfully!")) ;;
       loadScenesList_detached ;;
       scene <- member (data_scene data) ;;
       ret (Some (scene_id scene))
     else
       act (showError (JS.or_else (error data) "Failed to create scene")) ;;
       ret None)
    (fun e =>
       act (emit (ConsoleError "Failed to create scene:" e)) ;;
       act (showError "Failed to create scene") ;;
       ret None).

(** *** Loading a scene *)

Definition export_buttons : list string :=
  [ "export-complete-btn"; "export-individual-btn"; "export-selective-btn";
    "validate-scene-btn"; "generate-scene-preview-btn" ].

Definition updateExportButtonStates (scene : option Scene) (w : World) : World :=
  let enabled :=
    match scene with
    | Some s => (0 <? object_count s)%nat
    | None => false
    end in
  fold_left (fun w' elt => set_disabled elt (negb enabled) w') export_buttons w.

Definition updateSceneDisplay (scene : option Scene) (w : World) : World :=
  if negb (present (doc w) "scene-display") then w
  else
    let w1 := updateExportButtonStates scene w in
    match scene with
    | None =>
        set_doc (scene_placeholder (doc w1))
          (emit (SetInnerHTML "scene-display" NoSceneSelected) w1)
    | Some s =>
        set_doc (scene_template (doc w1))
          (emit (SetInnerHTML "scene-display" (SceneInfo s)) w1)
    end.

Definition loadScene (sceneId : string) : Async unit :=
  if negb (JS.truthy sceneId) then
    act (set_currentScene None) ;;
    act (updateSceneDisplay None)
  else
    try_catch
      ('(_, data) <- fetch_json (mkRequest GET ("/api/scenes/" ++ sceneId) NoBody) ;;
       if success data
       then
         act (set_currentScene (data_scene data)) ;;
         act (updateSceneDisplay (data_scene data)) ;;
         act (set_selectedObjects [])
       else
         act (showError (JS.or_else (error data) "Failed to load scene")))
      (fun e =>
         act (emit (ConsoleError "Failed to load scene:" e)) ;;
         act (showError "Failed to load scene")).

(** *** Selection *)

Definition toggleObjectSelection (objectId : string) (selected : bool) (w : World)
  : World :=
  let w1 :=
    if selected
    then set_selectedObjects (JS.set_add objectId (selectedObjects w)) w
    else set_selectedObjects (JS.set_delete objectId (selectedObjects w)) w in
  let selectedCount := List.length (selectedObjects w1) in
  let w2 :=
    set_text "selection-info"
      (if (0 <? selectedCount)%nat
       then JS.of_nat selectedCount ++ " objects selected"
       else "No objects selected") w1 in
  set_disabled "export-selective-btn" (selectedCount =? 0)%nat w2.

(** *** Preview *)

(** The image replaces the content of the preview container, the
    generate button included. *)
Definition displayScenePreview (previewUrl : JS.Member) (w : World) : World :=
  if negb (present (doc w) "scene-preview-container") then w
  else
    set_doc (set_present "generate-preview-btn" false (doc w))
      (emit (SetInnerHTML "scene-preview-container"
               (PreviewImage (JS.interpolate previewUrl))) w).

Definition generateScenePreview : Async unit :=
  scene <- read currentScene ;;
  match scene with
  | None => act (showError "No scene selected")
  | Some _ =>
      generateBtn <- read (fun w => present (doc w) "generate-preview-btn") ;;
      originalText <- read (fun w => textContent (doc w) "generate-preview-btn") ;;
      try_finally
        (try_catch
           (act (fun w =>
                   if generateBtn
                   then emit (SetDisabled "generate-preview-btn" true)
                          (emit (SetText "generate-preview-btn" "Generating...") w)
                   else w) ;;
            current <- read currentScene ;;
            s <- member current ;;
            '(_, data) <- fetch_json
                            (mkRequest POST
                               ("/api/scenes/" ++ scene_id s ++ "/preview") NoBody) ;;
            if success data
            then
              act (displayScenePreview (data_preview_url data)) ;;
              act (showSuccess "Scene preview generated successfully!")
            else
              act (showError
                     (JS.or_else (error data) "Failed to generate scene preview")))
           (fun e =>
              act (emit (ConsoleError "Failed to generate scene preview:" e)) ;;
              act (showError "Failed to generate scene preview")))
        (fun w =>
           if generateBtn
           then emit (SetDisabled "generate-preview-btn" false)
                  (emit (SetText "generate-preview-btn" originalText) w)
           else w)
  end.

(** *** Export *)

Definition getCompleteExportModalContent : Async Html :=
  current <- read currentScene ;;
  s <- member current ;;
  ret (CompleteExportForm (object_count s)).

(** [this.currentScene.objects.find(o => o.id === id)] *)
Definition find_object (objectId : string) (s : Scene) : option SceneObject :=
  find (fun o => String.eqb (id o) objectId) (objects s).

Definition getSelectiveExportModalContent : Async Html :=
  current <- read currentScene ;;
  s <- member current ;;
  selected <- read selectedObjects ;;
  ret (SelectiveExportForm (List.length selected)
         (map (fun i => match find_object i s with
                        | Some obj => obj_name obj
                        | None => i
                        end) selected)).

Definition getIndividualExportModalContent : Async Html :=
  current <- read currentScene ;;
  s <- member current ;;
  ret (IndividualExportForm (objects s)).

Definition showExportModal (exportType : string) : Async unit :=
  scene <- read currentScene ;;
  match scene with
  | None => act (showError "No scene selected")
  | Some _ =>
      if String.eqb exportType "individual" then
        modalContent <- getIndividualExportModalContent ;;
        act (showModal "Export Scene" modalContent)
      else if String.eqb exportType "selective" then
        selected <- read selectedObjects ;;
        if (List.length selected =? 0)%nat
        then act (showError "No objects selected for selective export")
        else
          modalContent <- getSelectiveExportModalContent ;;
          act (showModal "Export Scene" modalContent)
      else
        modalContent <- getCompleteExportModalContent ;;
        act (showModal "Export Scene" modalContent)
  end.

Definition showExportSuccess (exportResult : option ExportResult) : Async unit :=
  r <- member exportResult ;;
  act (showModal "Export Complete" (ExportSuccess r)).

(** The part of [executeExport] from its [try] on. *)
Definition sendExport (exportData : ExportData) : Async unit :=
  try_finally
    (try_catch
       (act closeModal ;;
        act (showLoading "Exporting...") ;;
        current <- read currentScene ;;
        s <- member current ;;
        '(ok, data) <- fetch_json
                         (mkRequest POST ("/api/scene/" ++ scene_id s ++ "/export")
                            (ExportBody exportData)) ;;
        if ok && success data
        then showExportSuccess (data_export data)
        else act (showError (JS.or_else (error data) "Export failed")))
       (fun e =>
          act (emit (ConsoleError "Export failed:" e)) ;;
          act (showError "Export failed")))
    hideLoading.

Definition executeExport (exportType : string) : Async unit :=
  fmt <- read (fun w => JS.or_else (get_value (doc w) "export-format") "obj") ;;
  fname <- read (fun w => JS.or_else (get_value (doc w) "export-filename")
                            EmptyString) ;;
  (* [filename: filename || undefined] *)
  let fname' := if JS.truthy fname then Some fname else None in
  if String.eqb exportType "individual" then
    objectId <- read (fun w => get_value (doc w) "individual-object-select") ;;
    if negb (JS.truthy_opt objectId)
    then act (showError "Please select an object to export")
    else sendExport (mkExportData exportType fmt fname' objectId None None)
  else if String.eqb exportType "selective" then
    (* [Array.from(this.selectedObjects)] *)
    selected <- read selectedObjects ;;
    (* [document.getElementById('combined-file')?.checked !== false] *)
    combined <- read (fun w => match get_checked (doc w) "combined-file" with
                               | Some b => b
                               | None => true
                               end) ;;
    sendExport (mkExportData exportType fmt fname' None (Some selected)
                  (Some combined))
  else
    sendExport (mkExportData exportType fmt fname' None None None).

(** *** Validation *)

Definition showValidationResults (validation : option ValidationReport) : Async unit :=
  v <- member validation ;;
  act (showModal "Scene Validation Results" (ValidationResults v)).

Definition validateScene : Async unit :=
  scene <- read currentScene ;;
  match scene with
  | None => act (showError "No scene selected")
  | Some _ =>
      try_finally
        (try_catch
           (act (showLoading "Validating scene...") ;;
            current <- read currentScene ;;
            s <- member current ;;
            '(_, data) <- fetch_json
                            (mkRequest POST
                               ("/api/scenes/" ++ scene_id s ++ "/validate")
                               (ValidateBody false)) ;;
            if success data
            then showValidationResults (data_validation data)
            else act (showError (JS.or_else (error data) "Validation failed")))
           (fun e =>
              act (emit (ConsoleError "Validation failed:" e)) ;;
              act (showError "Validation failed")))
        hideLoading
  end.

(** *** The create-scene dialog *)

Definition showCreateSceneModal : World -> World :=
  showModal "Create New Scene" CreateSceneForm.

Definition submitCreateScene : Async unit :=
  name <- read (fun w => option_map JS.trim (get_value (doc w) "scene-name")) ;;
  description <- read (fun w => option_map JS.trim
                                  (get_value (doc w) "scene-description")) ;;
  match name with
  | Some n =>
      if negb (JS.truthy n) then act (showError "Scene name is required")
      else
        act closeModal ;;
        sceneId <- createScene n description ;;
        match sceneId with
        | Some i =>
            if JS.truthy i then
              sceneSelect <- read (fun w => present (doc w) "scene-select") ;;
              if sceneSelect then
                act (emit (SetValue "scene-select" i)) ;;
                loadScene i
              else ret tt
            else ret tt
        | None => ret tt
        end
  | None => act (showError "Scene name is required")
  end.

(** *** Per-object actions *)

Definition previewObject (objectId : string) : Async unit :=
  scene <- read currentScene ;;
  match scene with
  | None => act (showError "No scene selected")
  | Some s =>
      match find_object objectId s with
      | None => act (showError "Object not found")
      | Some object => act (showModal "Object Preview" (ObjectPreview object))
      end
  end.

(** The pre-selection of the object in the dialog happens in a timer,
    100 ms later, and is not part of the call. *)
Definition exportIndividualObject (objectId : string) : Async unit :=
  scene <- read currentScene ;;
  match scene with
  | None => act (showError "No scene selected")
  | Some s =>
      match find_object objectId s with
      | None => act (showError "Object not found")
      | Some _ => showExportModal "individual"
      end
  end.

(** *** Loading a generated scene *)

(** The drop-down is looked up once, before the first [await]; the value
    is written to that element whatever the page holds by then. *)
Definition loadGeneratedScene (sceneId : string) : Async unit :=
  sceneSelect <- read (fun w => present (doc w) "scene-select") ;;
  if sceneSelect then
    loadScenesList ;;
    act (emit (SetValue "scene-select" sceneId)) ;;
    loadScene sceneId
  else ret tt.

End SceneManager.

(** ** The event loop

    Calls and responses interleave: a call runs until it returns or
    suspends, and a response wakes the call that waits for it, in the
    world as it is by then.  Nothing orders the responses of two requests
    that are both in flight. *)

Module EventLoop.

Record Session := mkSession {
  world : World;
  pending : list (Request * (FetchResult -> World -> Task unit))
}.

Definition start (w : World) : Session := mkSession w [].

Definition settle (t : Task unit)
           (others : list (Request * (FetchResult -> World -> Task unit)))
  : Session :=
  match t with
  | Done w _ => mkSession w others
  | Await w req k => mkSession w (others ++ [(req, k)])
  end.

(** A handler calls a method. *)
Definition call (m : Async unit) (s : Session) : Session :=
  settle (m (world s)) (pending s).

(** The response to the [i]-th request in flight arrives. *)
Definition deliver (i : nat) (resp : FetchResult) (s : Session) : Session :=
  match nth_error (pending s) i with
  | None => s
  | Some (_, k) =>
      settle (k resp (world s)) (firstn i (pending s) ++ skipn (S i) (pending s))
  end.

Definition in_flight (s : Session) : list Request := map fst (pending s).

End EventLoop.

(** ** Sample pages, scenes and responses *)

Module Sample.

(** A document where exactly the listed ids exist, with the given values. *)
Definition document (ids : list string) (values : list (string * string)) : Document :=
  mkDocument
    (fun e => existsb (String.eqb e) ids)
    (fun e => match find (fun p => String.eqb e (fst p)) values with
              | Some p => snd p
              | None => EmptyString
              end)
    (fun _ => false)
    (fun _ => EmptyString).

(** The scene page: the controls are there, no dialog is open and no
    scene has been drawn yet. *)
Definition page : Document :=
  document
    [ "scene-display"; "scene-select"; "selection-info";
      "export-complete-btn"; "export-individual-btn"; "export-selective-btn";
      "validate-scene-btn"; "generate-scene-preview-btn" ]
    [].

(** The scene page without the scenes drop-down. *)
Definition page_without_select : Document :=
  document [ "scene-display"; "selection-info"; "scene-name" ]
           [ ("scene-name", "Desk Setup") ].

(** The scene page with the create-scene dialog filled in. *)
Definition page_creating (scene_name : string) : Document :=
  document [ "scene-display"; "scene-select"; "scene-modal";
             "scene-name"; "scene-description" ]
           [ ("scene-name", scene_name); ("scene-description", "office") ].

(** The scene page with the selective export dialog open, STL chosen. *)
Definition page_exporting : Document :=
  document [ "scene-display"; "scene-select"; "selection-info"; "scene-modal";
             "export-format"; "export-filename"; "combined-file" ]
           [ ("export-format", "stl") ].

Definition object (i : string) : SceneObject := mkObject i ("Object " ++ i) "cube" "2".

Definition scene (i : string) (objs : list SceneObject) : Scene :=
  mkScene i ("Scene " ++ i) EmptyString (List.length objs) objs 0 None.

Definition sceneA : Scene := scene "A" [object "a1"].
Definition sceneB : Scene := scene "B" [object "b1"; object "b2"].
Definition scene3 : Scene := scene "s3" [object "o1"; object "o2"; object "o3"].

Definition loaded (s : Scene) : FetchResult := Json true (mkData true None (SceneData s)).
Definition refused (msg : string) : FetchResult :=
  Json true (mkData false (Some msg) NoPayload).
Definition preview (u : string) : FetchResult :=
  Json true (mkData true None (PreviewData u)).
Definition created (i : string) : FetchResult := loaded (scene i []).

(** The scene page with the individual export dialog open on object o2. *)
Definition page_exporting_object : Document :=
  document [ "scene-display"; "scene-select"; "scene-modal";
             "individual-object-select"; "export-format"; "export-filename" ]
           [ ("individual-object-select", "o2"); ("export-format", "gltf");
             ("export-filename", "my part") ].

Definition empty_scene : Scene := scene "e0" [].

Definition listed (l : list SceneSummary) : FetchResult :=
  Json true (mkData true None (ScenesData l)).
Definition validated (v : ValidationReport) : FetchResult :=
  Json true (mkData true None (ValidationData v)).
Definition exported (r : ExportResult) : FetchResult :=
  Json true (mkData true None (ExportedData r)).

End Sample.

Import SceneManager EventLoop.

(** ** Scenarios and operations the properties are stated over *)

(** A sequence of [toggleObjectSelection] calls, first call first. *)
Definition toggles (calls : list (string * bool)) (w : World) : World :=
  fold_left (fun w' c => toggleObjectSelection (fst c) (snd c) w') calls w.

(** The [included] flag of the last call of the sequence that names [i]. *)
Fixpoint last_toggle (i : string) (calls : list (string * bool)) : option bool :=
  match calls with
  | [] => None
  | (j, b) :: rest =>
      match last_toggle i rest with
      | Some b' => Some b'
      | None => if String.eqb i j then Some b else None
      end
  end.

(** A load fails when the fetch throws or the body says [success: false]. *)
Definition load_failed (resp : FetchResult) : bool :=
  match resp with
  | Unreachable => true
  | Json _ d => negb (success d)
  end.

(** The message a failed load shows: the server's own when it sent one. *)
Definition load_error_message (resp : FetchResult) : string :=
  match resp with
  | Unreachable => "Failed to load scene"
  | Json _ d => JS.or_else (error d) "Failed to load scene"
  end.

(** The entry points that need a loaded scene. *)
Inductive Operation :=
| GenerateScenePreview
| ValidateScene
| ShowExportModal (exportType : string)
| ExecuteExport (exportType : string)
| PreviewObject (objectId : string)
| ExportIndividualObject (objectId : string).

Definition invoke (op : Operation) : Async unit :=
  match op with
  | GenerateScenePreview => generateScenePreview
  | ValidateScene => validateScene
  | ShowExportModal t => showExportModal t
  | ExecuteExport t => executeExport t
  | PreviewObject i => previewObject i
  | ExportIndividualObject i => exportIndividualObject i
  end.

(** What [createScene] returns for a response. *)
Definition created_id (resp : FetchResult) : option string :=
  match resp with
  | Unreachable => None
  | Json _ d => if success d then option_map scene_id (data_scene d) else None
  end.

(** When [submitCreateScene] goes on to load the scene it created. *)
Definition autoloads (sceneId : option string) (w : World) : bool :=
  JS.truthy_opt sceneId && present (doc w) "scene-select".

(** Two worlds with the same session: same fields, same requests sent,
    same notifications shown, same dialogs opened. *)
Record same_session (w w' : World) : Prop := mkSame {
  same_scene : currentScene w' = currentScene w;
  same_selection : selectedObjects w' = selectedObjects w;
  same_fetches : fetches w' = fetches w;
  same_notifications : notifications w' = notifications w;
  same_modals : modals w' = modals w
}.

(** An effect that is neither a request, a notification nor a dialog. *)
Definition quiet (e : Effect) : bool :=
  match e with
  | Fetch _ | Notify _ _ | ShowModal _ _ => false
  | _ => true
  end.

(** World [w'] is [w] after one error report [msg] and nothing else that
    the session shows: no request, no dialog, the fields as they were. *)
Record reports (msg : string) (w w' : World) : Prop := mkReports {
  rep_scene : currentScene w' = currentScene w;
  rep_selection : selectedObjects w' = selectedObjects w;
  rep_fetches : fetches w' = fetches w;
  rep_notifications : notifications w' = (notifications w ++ [(msg, Error)])%list;
  rep_modals : modals w' = modals w
}.

(** World [w'] is [w] with the fields as they were, and with exactly the
    requests [f], the notifications [n] and the dialogs [m] added. *)
Record advances (f : list Request) (n : list (string * Severity))
       (m : list (string * Html)) (w w' : World) : Prop := mkAdvances {
  adv_scene : currentScene w' = currentScene w;
  adv_selection : selectedObjects w' = selectedObjects w;
  adv_fetches : fetches w' = (fetches w ++ f)%list;
  adv_notifications : notifications w' = (notifications w ++ n)%list;
  adv_modals : modals w' = (modals w ++ m)%list
}.

(** A reply that the methods testing [data.success] take as a success. *)
Definition accepted (resp : FetchResult) : bool :=
  match resp with
  | Unreachable => false
  | Json _ d => success d
  end.

(** A reply that [executeExport], which also tests [response.ok], takes
    as a success. *)
Definition accepted_with_status (resp : FetchResult) : bool :=
  match resp with
  | Unreachable => false
  | Json ok d => ok && success d
  end.

(** The text shown for a reply that is not a success: [data.error] when
    the reply has a non-empty one, the method's own text otherwise. *)
Definition error_text (default : string) (resp : FetchResult) : string :=
  match resp with
  | Unreachable => default
  | Json _ d => JS.or_else (error d) default
  end.

Definition reply_scenes (resp : FetchResult) : option (list SceneSummary) :=
  match resp with
  | Unreachable => None
  | Json _ d => data_scenes d
  end.

Definition reply_validation (resp : FetchResult) : option ValidationReport :=
  match resp with
  | Unreachable => None
  | Json _ d => data_validation d
  end.

Definition reply_export (resp : FetchResult) : option ExportResult :=
  match resp with
  | Unreachable => None
  | Json _ d => data_export d
  end.

Definition reply_preview_url (resp : FetchResult) : JS.Member :=
  match resp with
  | Unreachable => JS.Undefined
  | Json _ d => data_preview_url d
  end.

Definition reply_scene (resp : FetchResult) : option Scene :=
  match resp with
  | Unreachable => None
  | Json _ d => data_scene d
  end.

(** The [disabled] flag last written to element [elt], if any was. *)
Definition disabled_state (elt : string) (t : list Effect) : option bool :=
  fold_left (fun st e => match e with
                         | SetDisabled x b => if String.eqb x elt then Some b else st
                         | _ => st
                         end) t None.

(** How many [#scene-modal] elements the trace leaves in the body. *)
Definition dialogs_open (t : list Effect) : nat :=
  fold_left (fun k e => match e with
                        | ShowModal _ _ => S k
                        | CloseModal => pred k
                        | _ => k
                        end) t 0.

(** How many [#loading-overlay] elements the trace leaves in the body. *)
Definition overlays_open (t : list Effect) : nat :=
  fold_left (fun k e => match e with
                        | ShowLoading _ => S k
                        | HideLoading => pred k
                        | _ => k
                        end) t 0.

(** The document agrees with the trace on the dialog and on the overlay. *)
Definition tracked (w : World) : Prop :=
  dialogs_open (trace w) = (if present (doc w) "scene-modal" then 1 else 0)
  /\ overlays_open (trace w) = (if present (doc w) "loading-overlay" then 1 else 0).

(** A call keeps the session: it returns without throwing, or sends one
    request and, whatever the reply and whatever happened meanwhile,
    returns without throwing after it; and neither the call nor its
    continuation changes the scene or the selection, or sends anything
    besides that one request. *)
Definition keeps_session (w : World) (t : Task unit) : Prop :=
  match t with
  | Done w1 r =>
      r = Returned tt
      /\ currentScene w1 = currentScene w
      /\ selectedObjects w1 = selectedObjects w
      /\ fetches w1 = fetches w
  | Await w1 req k =>
      currentScene w1 = currentScene w
      /\ selectedObjects w1 = selectedObjects w
      /\ fetches w1 = (fetches w ++ [req])%list
      /\ forall resp w',
           exists w'',
             k resp w' = Done w'' (Returned tt)
             /\ currentScene w'' = currentScene w'
             /\ selectedObjects w'' = selectedObjects w'
             /\ fetches w'' = fetches w'
  end.

(** ** Framing: what the page helpers leave alone *)

Open Scope list_scope.

Lemma fetches_of_app (t u : list Effect) :
  fetches_of (t ++ u) = fetches_of t ++ fetches_of u.
Proof. unfold fetches_of. apply flat_map_app. Qed.

Lemma notifications_of_app (t u : list Effect) :
  notifications_of (t ++ u) = notifications_of t ++ notifications_of u.
Proof. unfold notifications_of. apply flat_map_app. Qed.

Lemma modals_of_app (t u : list Effect) :
  modals_of (t ++ u) = modals_of t ++ modals_of u.
Proof. unfold modals_of. apply flat_map_app. Qed.

Lemma previews_of_app (t u : list Effect) :
  previews_of (t ++ u) = previews_of t ++ previews_of u.
Proof. unfold previews_of. apply flat_map_app. Qed.

Lemma same_session_refl w : same_session w w.
Proof. constructor; reflexivity. Qed.

Lemma same_session_trans w1 w2 w3 :
  same_session w1 w2 -> same_session w2 w3 -> same_session w1 w3.
Proof.
  intros [a b c d e] [a' b' c' d' e'].
  constructor; congruence.
Qed.

Lemma emit_quiet e w : quiet e = true -> same_session w (emit e w).
Proof.
  intros Hq. constructor; try reflexivity;
    unfold fetches, notifications, modals, emit; cbn [trace];
    rewrite ?fetches_of_app, ?notifications_of_app, ?modals_of_app;
    destruct e; try discriminate Hq; cbn; apply app_nil_r.
Qed.

Lemma set_doc_same d w : same_session w (set_doc d w).
Proof. constructor; reflexivity. Qed.

Lemma closeModal_same w : same_session w (closeModal w).
Proof.
  unfold closeModal. destruct (present (doc w) "scene-modal").
  - eapply same_session_trans; [apply (emit_quiet CloseModal); reflexivity|].
    apply set_doc_same.
  - apply same_session_refl.
Qed.

Lemma hideLoading_same w : same_session w (hideLoading w).
Proof.
  unfold hideLoading. destruct (present (doc w) "loading-overlay").
  - eapply same_session_trans; [apply (emit_quiet HideLoading); reflexivity|].
    apply set_doc_same.
  - apply same_session_refl.
Qed.

Lemma showLoading_same msg w : same_session w (showLoading msg w).
Proof.
  unfold showLoading.
  eapply same_session_trans; [apply hideLoading_same|].
  eapply same_session_trans; [apply (emit_quiet (ShowLoading msg)); reflexivity|].
  apply set_doc_same.
Qed.

Lemma set_disabled_same elt b w : same_session w (set_disabled elt b w).
Proof.
  unfold set_disabled. destruct (present (doc w) elt).
  - apply emit_quiet; reflexivity.
  - apply same_session_refl.
Qed.

Lemma set_text_same elt s w : same_session w (set_text elt s w).
Proof.
  unfold set_text. destruct (present (doc w) elt).
  - apply emit_quiet; reflexivity.
  - apply same_session_refl.
Qed.

Lemma updateExportButtonStates_same scene w :
  same_session w (updateExportButtonStates scene w).
Proof.
  unfold updateExportButtonStates.
  generalize export_buttons as l. intros l. revert w.
  induction l as [|elt l IH]; intros w; cbn [fold_left].
  - apply same_session_refl.
  - eapply same_session_trans; [apply set_disabled_same|apply IH].
Qed.

Lemma updateSceneDisplay_same scene w : same_session w (updateSceneDisplay scene w).
Proof.
  unfold updateSceneDisplay. destruct (present (doc w) "scene-display"); cbn [negb].
  - destruct scene;
      (eapply same_session_trans; [apply updateExportButtonStates_same|]);
      (eapply same_session_trans; [|apply set_doc_same]);
      apply emit_quiet; reflexivity.
  - apply same_session_refl.
Qed.

Lemma showError_reports msg w : reports msg w (showError msg w).
Proof.
  constructor; try reflexivity;
    unfold showError, showNotification, fetches, notifications, modals, emit;
    cbn [trace];
    rewrite ?fetches_of_app, ?notifications_of_app, ?modals_of_app; cbn;
    rewrite ?app_nil_r; reflexivity.
Qed.

Lemma same_then_reports msg w1 w2 w3 :
  same_session w1 w2 -> reports msg w2 w3 -> reports msg w1 w3.
Proof.
  intros [a b c d e] [a' b' c' d' e']. constructor; congruence.
Qed.

Lemma reports_then_same msg w1 w2 w3 :
  reports msg w1 w2 -> same_session w2 w3 -> reports msg w1 w3.
Proof.
  intros [a b c d e] [a' b' c' d' e']. constructor; congruence.
Qed.

(** ** Operations that need a scene, invoked without one *)

Lemma sendExport_unloaded e w :
  currentScene w = None ->
  exists w', sendExport e w = Done w' (Returned tt) /\ reports "Export failed" w w'.
Proof.
  intros Hnone.
  assert (H1 : currentScene (showLoading "Exporting..." (closeModal w)) = None).
  { rewrite (same_scene (showLoading_same _ _)), (same_scene (closeModal_same _)).
    exact Hnone. }
  unfold sendExport, try_finally, try_catch, bind, act, read.
  cbn [bind_task catch_task finally_task].
  rewrite H1. cbn [member throw bind_task catch_task finally_task].
  eexists; split; [reflexivity|].
  eapply reports_then_same; [|apply hideLoading_same].
  eapply same_then_reports; [|apply showError_reports].
  eapply same_session_trans; [apply closeModal_same|].
  eapply same_session_trans; [apply showLoading_same|].
  apply emit_quiet; reflexivity.
Qed.

(** What [executeExport] does from its [try] on when no scene is loaded:
    the dialog is closed and the overlay shown before
    [this.currentScene.scene_id] throws; the [catch] logs the [TypeError]
    and shows the export's own failure text, the [finally] takes the
    overlay away again. *)
Lemma sendExport_unloaded_trace e w :
  currentScene w = None ->
  exists w',
    sendExport e w = Done w' (Returned tt)
    /\ currentScene w' = None
    /\ selectedObjects w' = selectedObjects w
    /\ trace w'
       = trace w
         ++ (if present (doc w) "scene-modal" then [CloseModal] else [])
         ++ (if present (doc w) "loading-overlay" then [HideLoading] else [])
         ++ [ ShowLoading "Exporting...";
              ConsoleError "Export failed:" TypeError;
              Notify "Export failed" Error;
              HideLoading ].
Proof.
  intros Hnone.
  unfold sendExport, try_finally, try_catch, bind, act, read.
  cbn [bind_task catch_task finally_task].
  rewrite (same_scene (showLoading_same _ _)), (same_scene (closeModal_same _)), Hnone.
  cbn [member throw bind_task catch_task finally_task].
  eexists. split; [reflexivity|].
  unfold showError, showNotification, showLoading, hideLoading, closeModal.
  destruct (present (doc w) "scene-modal") eqn:Hm;
    destruct (present (doc w) "loading-overlay") eqn:Hl;
    cbn [doc set_doc set_present present emit String.eqb Ascii.eqb Bool.eqb];
    rewrite ?Hm, ?Hl;
    cbn [doc set_doc set_present present emit String.eqb Ascii.eqb Bool.eqb
         currentScene selectedObjects trace app];
    rewrite <- ?app_assoc; cbn [app];
    (split; [exact Hnone|]); split; reflexivity.
Qed.

(** C8, amended. Called while [currentScene] is null, every operation
    that needs a loaded scene returns without throwing and without
    sending a request, and leaves the fields alone; but only the
    operations that test [currentScene] themselves fail fast, with the
    one notification "No scene selected".  [executeExport] has no such
    test.  For an individual export with no object chosen it shows
    "Please select an object to export".  Otherwise it closes the dialog,
    shows the loading overlay, fails on [this.currentScene.scene_id]
    while it builds the URL, logs that [TypeError], shows "Export failed"
    and hides the overlay again. *)
Theorem unloaded_operation_outcome (op : Operation) (w : World) :
  currentScene w = None ->
  exists w',
    invoke op w = Done w' (Returned tt)
    /\ currentScene w' = None
    /\ selectedObjects w' = selectedObjects w
    /\ fetches w' = fetches w
    /\ trace w'
       = trace w
         ++ match op with
            | ExecuteExport exportType =>
                if String.eqb exportType "individual"
                   && negb (JS.truthy_opt
                              (get_value (doc w) "individual-object-select"))
                then [Notify "Please select an object to export" Error]
                else (if present (doc w) "scene-modal" then [CloseModal] else [])
                     ++ (if present (doc w) "loading-overlay"
                         then [HideLoading] else [])
                     ++ [ ShowLoading "Exporting...";
                          ConsoleError "Export failed:" TypeError;
                          Notify "Export failed" Error;
                          HideLoading ]
            | _ => [Notify "No scene selected" Error]
            end.
Proof.
  intros Hnone.
  assert (Hfetch : forall w' u,
             trace w' = trace w ++ u -> fetches_of u = [] -> fetches w' = fetches w).
  { intros w' u Ht Hu. unfold fetches. rewrite Ht, fetches_of_app, Hu.
    apply app_nil_r. }
  destruct op as [ | | t | t | i | i]; cbn [invoke];
    try (unfold generateScenePreview, validateScene, showExportModal, previewObject,
           exportIndividualObject, bind, read;
         cbn [bind_task]; rewrite Hnone;
         eexists; split; [reflexivity|];
         split; [exact Hnone|]; split; [reflexivity|];
         split; [apply (Hfetch _ [Notify "No scene selected" Error]); reflexivity
                |reflexivity]).
  unfold executeExport, bind, read. cbn [bind_task].
  destruct (String.eqb t "individual"); cbn [andb bind_task].
  - destruct (negb (JS.truthy_opt (get_value (doc w) "individual-object-select"))).
    + eexists. split; [reflexivity|]. split; [exact Hnone|]. split; [reflexivity|].
      split; [apply (Hfetch _ [Notify "Please select an object to export" Error]);
              reflexivity
             |reflexivity].
    + match goal with
      | |- context [sendExport ?e w] =>
          destruct (sendExport_unloaded_trace e w Hnone)
            as (w' & Hrun & Hscene & Hsel & Ht)
      end.
      exists w'. split; [exact Hrun|]. split; [exact Hscene|]. split; [exact Hsel|].
      split; [|exact Ht].
      apply (Hfetch _ _ Ht).
      destruct (present (doc w) "scene-modal");
        destruct (present (doc w) "loading-overlay"); reflexivity.
  - destruct (String.eqb t "selective"); cbn [bind_task];
      match goal with
      | |- context [sendExport ?e w] =>
          destruct (sendExport_unloaded_trace e w Hnone)
            as (w' & Hrun & Hscene & Hsel & Ht)
      end;
      (exists w'; split; [exact Hrun|]; split; [exact Hscene|]; split; [exact Hsel|];
       split; [|exact Ht]);
      apply (Hfetch _ _ Ht);
      destruct (present (doc w) "scene-modal");
        destruct (present (doc w) "loading-overlay"); reflexivity.
Qed.

Lemma unloaded_operation_outcome_witness :
  let w := fresh Sample.page_exporting in
  currentScene w = None
  /\ exists w',
       invoke (ExecuteExport "selective") w = Done w' (Returned tt)
       /\ fetches w' = []
       /\ trace w'
          = [ CloseModal;
              ShowLoading "Exporting...";
              ConsoleError "Export failed:" TypeError;
              Notify "Export failed" Error;
              HideLoading ].
Proof.
  cbv zeta. split; [reflexivity|].
  destruct (unloaded_operation_outcome (ExecuteExport "selective")
              (fresh Sample.page_exporting) eq_refl)
    as (w' & Hrun & _ & _ & Hfetch & Ht).
  exists w'. split; [exact Hrun|]. split; [exact Hfetch|exact Ht].
Defined.

(** C8 as stated fails for [executeExport]: on the page with no scene
    loaded [validateScene] shows "No scene selected" and does nothing
    else, while [executeExport] goes into its [try], shows and hides the
    loading overlay, logs a [TypeError] and shows "Export failed". *)
Lemma executeExport_unloaded_is_not_guarded :
  let w := fresh Sample.page in
  currentScene w = None
  /\ (exists w',
         validateScene w = Done w' (Returned tt)
         /\ trace w' = [Notify "No scene selected" Error])
  /\ exists w',
       executeExport "complete" w = Done w' (Returned tt)
       /\ trace w'
          = [ ShowLoading "Exporting...";
              ConsoleError "Export failed:" TypeError;
              Notify "Export failed" Error;
              HideLoading ]
       /\ notifications w' <> [("No scene selected"%string, Error)].
Proof.
  cbv zeta. split; [reflexivity|]. split.
  - exists (world_of (validateScene (fresh Sample.page))).
    split; vm_compute; reflexivity.
  - exists (world_of (executeExport "complete" (fresh Sample.page))).
    split; [vm_compute; reflexivity|]. split; [vm_compute; reflexivity|].
    vm_compute. discriminate.
Qed.

(** ** Selection *)

Lemma toggleObjectSelection_selection i b w :
  selectedObjects (toggleObjectSelection i b w)
  = if b then JS.set_add i (selectedObjects w) else JS.set_delete i (selectedObjects w).
Proof.
  unfold toggleObjectSelection.
  rewrite (same_selection (set_disabled_same _ _ _)),
    (same_selection (set_text_same _ _ _)).
  destruct b; reflexivity.
Qed.

Lemma toggleObjectSelection_scene i b w :
  currentScene (toggleObjectSelection i b w) = currentScene w.
Proof.
  unfold toggleObjectSelection.
  rewrite (same_scene (set_disabled_same _ _ _)),
    (same_scene (set_text_same _ _ _)).
  destruct b; reflexivity.
Qed.

Lemma toggleObjectSelection_fetches i b w :
  fetches (toggleObjectSelection i b w) = fetches w.
Proof.
  unfold toggleObjectSelection.
  rewrite (same_fetches (set_disabled_same _ _ _)),
    (same_fetches (set_text_same _ _ _)).
  destruct b; reflexivity.
Qed.

(** ** Export *)

Lemma fetches_emit_Fetch req w : fetches (emit (Fetch req) w) = fetches w ++ [req].
Proof.
  unfold fetches, emit; cbn [trace]. rewrite fetches_of_app. reflexivity.
Qed.

(** With a scene loaded, a selective export is sent whatever the
    selection holds: the body carries [Array.from(this.selectedObjects)]. *)
Lemma executeExport_selective_sends w s :
  currentScene w = Some s ->
  exists w' k e,
    executeExport "selective" w
    = Await w' (mkRequest POST ("/api/scene/" ++ scene_id s ++ "/export")%string
                  (ExportBody e)) k
    /\ export_type e = "selective"%string
    /\ export_format e = JS.or_else (get_value (doc w) "export-format") "obj"
    /\ object_id e = None
    /\ object_ids e = Some (selectedObjects w)
    /\ fetches w'
       = fetches w ++ [mkRequest POST ("/api/scene/" ++ scene_id s ++ "/export")%string
                         (ExportBody e)].
Proof.
  intros Hs.
  assert (H1 : currentScene (showLoading "Exporting..." (closeModal w)) = Some s).
  { rewrite (same_scene (showLoading_same _ _)), (same_scene (closeModal_same _)).
    exact Hs. }
  unfold executeExport, bind, read. cbn [bind_task].
  change (String.eqb "selective" "individual") with false.
  change (String.eqb "selective" "selective") with true.
  cbn iota. cbn [bind_task].
  unfold sendExport, try_finally, try_catch, bind, act, read.
  cbn [bind_task catch_task finally_task].
  rewrite H1. cbn [member ret bind_task catch_task finally_task fetch_json].
  do 3 eexists. split; [reflexivity|].
  cbn [export_type export_format object_id object_ids].
  repeat split.
  rewrite fetches_emit_Fetch,
    (same_fetches (showLoading_same _ _)), (same_fetches (closeModal_same _)).
  reflexivity.
Qed.

(** ** Loading and unloading a scene *)

(** What one call of [loadScene] with a non-empty id does: it sends the
    request and suspends; a reply with [success: true] installs the scene
    of the reply and clears the selection, in the world the reply finds;
    any other reply reports an error and changes nothing else. *)
Lemma loadScene_spec sceneId w :
  JS.truthy sceneId = true ->
  exists k,
    loadScene sceneId w
    = Await (emit (Fetch (mkRequest GET ("/api/scenes/" ++ sceneId)%string NoBody)) w)
        (mkRequest GET ("/api/scenes/" ++ sceneId)%string NoBody) k
    /\ (forall ok d w',
           success d = true ->
           k (Json ok d) w'
           = Done (set_selectedObjects []
                     (updateSceneDisplay (data_scene d)
                        (set_currentScene (data_scene d) w')))
               (Returned tt))
    /\ (forall resp w',
           load_failed resp = true ->
           exists w'',
             k resp w' = Done w'' (Returned tt)
             /\ reports (load_error_message resp) w' w'').
Proof.
  intros Ht. unfold loadScene. rewrite Ht. cbn [negb].
  unfold try_catch, bind, fetch_json, act.
  cbn [bind_task catch_task].
  eexists. split; [reflexivity|]. split.
  - intros ok d w' Hok. cbn [bind_task catch_task]. rewrite Hok. reflexivity.
  - intros [|ok d] w' Hfail; cbn [bind_task catch_task].
    + eexists. split; [reflexivity|].
      eapply same_then_reports; [|apply showError_reports].
      apply emit_quiet; reflexivity.
    + cbn [load_failed] in Hfail. apply negb_true_iff in Hfail. rewrite Hfail.
      eexists. split; [reflexivity|apply showError_reports].
Qed.

(** [loadScene('')] unloads: it returns at once with [currentScene] null
    and the selection as it was. *)
Lemma loadScene_unload w :
  loadScene EmptyString w
  = Done (updateSceneDisplay None (set_currentScene None w)) (Returned tt).
Proof. reflexivity. Qed.

Lemma loadScene_unload_state w :
  currentScene (world_of (loadScene EmptyString w)) = None
  /\ selectedObjects (world_of (loadScene EmptyString w)) = selectedObjects w
  /\ fetches (world_of (loadScene EmptyString w)) = fetches w.
Proof.
  rewrite loadScene_unload. cbn [world_of].
  rewrite (same_scene (updateSceneDisplay_same _ _)),
    (same_selection (updateSceneDisplay_same _ _)),
    (same_fetches (updateSceneDisplay_same _ _)).
  repeat split.
Qed.

(** A successful load installs the scene and empties the selection,
    whatever the selection held. *)
Lemma loadScene_success_clears_selection sceneId w ok d w' :
  JS.truthy sceneId = true ->
  success d = true ->
  exists w'',
    resume_in (loadScene sceneId w) (Json ok d) w' = Done w'' (Returned tt)
    /\ currentScene w'' = data_scene d
    /\ selectedObjects w'' = [].
Proof.
  intros Ht Hok.
  destruct (loadScene_spec sceneId w Ht) as (k & Hcall & Hsucc & _).
  rewrite Hcall. cbn [resume_in]. rewrite (Hsucc ok d w' Hok).
  eexists. split; [reflexivity|].
  cbn [selectedObjects set_selectedObjects currentScene].
  rewrite (same_scene (updateSceneDisplay_same _ _)). split; reflexivity.
Qed.

(** C2. The session below loads the scene with objects o1, o2, o3,
    selects o1 and o3 and then unloads with [loadScene('')].  The load
    leaves the selection empty; the unload leaves [currentScene] null but
    does not clear the selection: o1 and o3 are still selected although
    no scene is loaded. *)
Theorem loadScene_empty_id_keeps_selection :
  let w1 := world_of (resume (loadScene "s3" (fresh Sample.page))
                        (Sample.loaded Sample.scene3)) in
  let w2 := toggles [("o1", true); ("o3", true)]%string w1 in
  let w3 := world_of (loadScene EmptyString w2) in
  (currentScene w1 = Some Sample.scene3 /\ selectedObjects w1 = [])
  /\ selectedObjects w2 = ["o1"; "o3"]%string
  /\ currentScene w3 = None
  /\ selectedObjects w3 = ["o1"; "o3"]%string.
Proof. vm_compute. repeat split. Qed.

(** C4 as stated fails: with scene A loaded, a load of B that the server
    refuses, or that cannot reach the server, leaves A loaded;
    [currentScene] does not become null. *)
Lemma failed_load_keeps_current_scene :
  let w1 := world_of (resume (loadScene "A" (fresh Sample.page))
                        (Sample.loaded Sample.sceneA)) in
  let refused := resume (loadScene "B" w1) (Sample.refused "Scene not found") in
  let unreachable := resume (loadScene "B" w1) Unreachable in
  load_failed (Sample.refused "Scene not found") = true
  /\ load_failed Unreachable = true
  /\ currentScene (world_of refused) = Some Sample.sceneA
  /\ currentScene (world_of unreachable) = Some Sample.sceneA
  /\ currentScene (world_of refused) <> None.
Proof. vm_compute. repeat split. discriminate. Qed.

(** C4, amended. A load whose repository call fails (the fetch throws,
    or the reply carries [success: false]) finishes with exactly one error
    notification, the server's message when there is one and
    "Failed to load scene" otherwise, and leaves the session as the reply
    found it: [currentScene] and the selection are unchanged, nothing is
    sent. *)
Theorem failed_load_reports_and_keeps_state
        (sceneId : string) (w w' : World) (resp : FetchResult) :
  JS.truthy sceneId = true ->
  load_failed resp = true ->
  exists w'',
    resume_in (loadScene sceneId w) resp w' = Done w'' (Returned tt)
    /\ reports (load_error_message resp) w' w''.
Proof.
  intros Ht Hfail.
  destruct (loadScene_spec sceneId w Ht) as (k & Hcall & _ & Hk).
  rewrite Hcall. cbn [resume_in]. apply Hk. exact Hfail.
Qed.

Lemma failed_load_reports_and_keeps_state_witness :
  JS.truthy "B" = true
  /\ load_failed (Sample.refused "Scene not found") = true
  /\ exists w'',
       resume_in (loadScene "B" (fresh Sample.page))
         (Sample.refused "Scene not found") (fresh Sample.page)
       = Done w'' (Returned tt)
       /\ reports "Scene not found" (fresh Sample.page) w''.
Proof.
  split; [reflexivity|]. split; [reflexivity|].
  apply (failed_load_reports_and_keeps_state "B" (fresh Sample.page) (fresh Sample.page)
           (Sample.refused "Scene not found")); reflexivity.
Defined.

(** ** Two loads in flight *)

Lemma call_loadScene sceneId s :
  JS.truthy sceneId = true ->
  exists k,
    call (loadScene sceneId) s
    = mkSession
        (emit (Fetch (mkRequest GET ("/api/scenes/" ++ sceneId)%string NoBody)) (world s))
        (pending s ++ [(mkRequest GET ("/api/scenes/" ++ sceneId)%string NoBody, k)])
    /\ (forall ok d w',
           success d = true ->
           k (Json ok d) w'
           = Done (set_selectedObjects []
                     (updateSceneDisplay (data_scene d)
                        (set_currentScene (data_scene d) w')))
               (Returned tt)).
Proof.
  intros Ht.
  destruct (loadScene_spec sceneId (world s) Ht) as (k & Hcall & Hsucc & _).
  exists k. split; [|exact Hsucc].
  unfold call. rewrite Hcall. reflexivity.
Qed.

(** C1 as stated fails: nothing tags the calls.  Loads of A and B are
    both in flight; B's reply arrives and installs B; A's reply arrives
    late and replaces B by A. *)
Lemma stale_load_response_overwrites :
  let s := call (loadScene "B") (call (loadScene "A") (start (fresh Sample.page))) in
  let after_B := deliver 1 (Sample.loaded Sample.sceneB) s in
  let after_A := deliver 0 (Sample.loaded Sample.sceneA) after_B in
  in_flight s = [ mkRequest GET "/api/scenes/A" NoBody;
                  mkRequest GET "/api/scenes/B" NoBody ]
  /\ currentScene (world after_B) = Some Sample.sceneB
  /\ in_flight after_B = [ mkRequest GET "/api/scenes/A" NoBody ]
  /\ currentScene (world after_A) = Some Sample.sceneA
  /\ currentScene (world after_A) <> currentScene (world after_B).
Proof. vm_compute. repeat split. discriminate. Qed.

(** C1, amended. [loadScene] keeps no record of the latest request and
    drops no reply: with loads of A and B both in flight, each successful
    reply installs its scene and clears the selection when it arrives, so
    the session ends with the scene of whichever reply arrives last; a
    late reply for A replaces the scene that B's reply installed. *)
Theorem last_load_response_wins
        (w : World) (idA idB : string) (okA okB : bool) (dA dB : Data) :
  JS.truthy idA = true ->
  JS.truthy idB = true ->
  success dA = true ->
  success dB = true ->
  let s := call (loadScene idB) (call (loadScene idA) (start w)) in
  let after_B := deliver 1 (Json okB dB) s in
  let B_then_A := deliver 0 (Json okA dA) after_B in
  let A_then_B := deliver 0 (Json okB dB) (deliver 0 (Json okA dA) s) in
  in_flight s = [ mkRequest GET ("/api/scenes/" ++ idA)%string NoBody;
                  mkRequest GET ("/api/scenes/" ++ idB)%string NoBody ]
  /\ (currentScene (world after_B) = data_scene dB
      /\ selectedObjects (world after_B) = [])
  /\ (currentScene (world B_then_A) = data_scene dA
      /\ selectedObjects (world B_then_A) = []
      /\ in_flight B_then_A = [])
  /\ (currentScene (world A_then_B) = data_scene dB
      /\ selectedObjects (world A_then_B) = []
      /\ in_flight A_then_B = []).
Proof.
  intros HtA HtB HokA HokB.
  destruct (call_loadScene idA (start w) HtA) as (kA & HcallA & HkA).
  cbv zeta. rewrite HcallA.
  match goal with
  | |- context [call (loadScene idB) ?s1] =>
      destruct (call_loadScene idB s1 HtB) as (kB & HcallB & HkB)
  end.
  rewrite HcallB. cbn [world pending start app].
  unfold deliver, in_flight.
  cbn [pending world nth_error firstn skipn app map fst settle].
  rewrite !HkA, !HkB by assumption.
  cbn [pending world nth_error firstn skipn app map fst settle].
  rewrite !HkA, !HkB by assumption.
  cbn [pending world nth_error firstn skipn app map fst settle
         currentScene selectedObjects set_selectedObjects].
  rewrite !(same_scene (updateSceneDisplay_same _ _)).
  cbn [currentScene set_currentScene]. repeat split.
Qed.

Lemma last_load_response_wins_witness :
  JS.truthy "A" = true /\ JS.truthy "B" = true
  /\ success (mkData true None (SceneData Sample.sceneA)) = true
  /\ success (mkData true None (SceneData Sample.sceneB)) = true
  /\ currentScene
       (world (deliver 0 (Sample.loaded Sample.sceneA)
                 (deliver 1 (Sample.loaded Sample.sceneB)
                    (call (loadScene "B")
                       (call (loadScene "A") (start (fresh Sample.page)))))))
     = Some Sample.sceneA.
Proof.
  repeat (split; [reflexivity|]).
  apply (last_load_response_wins (fresh Sample.page) "A" "B" true true
           (mkData true None (SceneData Sample.sceneA))
           (mkData true None (SceneData Sample.sceneB))
           eq_refl eq_refl eq_refl eq_refl).
Defined.

(** ** Sequences of toggles *)

Lemma set_has_In x s : JS.set_has x s = true <-> In x s.
Proof.
  unfold JS.set_has. rewrite existsb_exists. split.
  - intros (y & Hy & Heq). apply String.eqb_eq in Heq. subst. exact Hy.
  - intros Hin. exists x. split; [exact Hin|apply String.eqb_refl].
Qed.

Lemma In_set_add i j s : In i (JS.set_add j s) <-> i = j \/ In i s.
Proof.
  unfold JS.set_add. destruct (JS.set_has j s) eqn:Hhas.
  - apply set_has_In in Hhas. split; [auto|].
    intros [->|H]; assumption.
  - rewrite in_app_iff. cbn [In]. split.
    + intros [H|[H|[]]]; auto.
    + intros [->|H]; auto.
Qed.

Lemma In_set_delete i j s : In i (JS.set_delete j s) <-> i <> j /\ In i s.
Proof.
  unfold JS.set_delete. rewrite filter_In, negb_true_iff, String.eqb_neq.
  split; intros [H1 H2]; split; auto.
Qed.

Lemma NoDup_set_add j s : NoDup s -> NoDup (JS.set_add j s).
Proof.
  intros Hs. unfold JS.set_add. destruct (JS.set_has j s) eqn:Hhas; [exact Hs|].
  assert (Hnot : ~ In j s).
  { intros Hin. apply set_has_In in Hin. congruence. }
  clear Hhas. induction Hs as [|x l Hx Hl IH]; cbn [app].
  - constructor; [intros []|constructor].
  - constructor.
    + rewrite in_app_iff. cbn [In]. intros [H|[H|[]]]; [auto|].
      subst. apply Hnot. left. reflexivity.
    + apply IH. intros Hin. apply Hnot. right. exact Hin.
Qed.

Lemma NoDup_set_delete j s : NoDup s -> NoDup (JS.set_delete j s).
Proof. intros Hs. unfold JS.set_delete. apply NoDup_filter. exact Hs. Qed.

Lemma toggles_cons j b calls w :
  toggles ((j, b) :: calls) w = toggles calls (toggleObjectSelection j b w).
Proof. reflexivity. Qed.

(** The selection stays a set. *)
Lemma toggles_NoDup calls : forall w,
  NoDup (selectedObjects w) -> NoDup (selectedObjects (toggles calls w)).
Proof.
  induction calls as [|[j b] calls IH]; intros w Hw; [exact Hw|].
  rewrite toggles_cons. apply IH. rewrite toggleObjectSelection_selection.
  destruct b; [apply NoDup_set_add|apply NoDup_set_delete]; exact Hw.
Qed.

(** Toggles that only name ids out of a given list, as the check boxes
    drawn for the objects of a scene do, keep the selection within it. *)
Lemma toggles_within ids calls : forall w,
  (forall i, In i (selectedObjects w) -> In i ids) ->
  (forall c, In c calls -> In (fst c) ids) ->
  forall i, In i (selectedObjects (toggles calls w)) -> In i ids.
Proof.
  induction calls as [|[j b] calls IH]; intros w Hw Hcalls i; [apply Hw|].
  rewrite toggles_cons. apply IH.
  - intros x. rewrite toggleObjectSelection_selection. destruct b.
    + rewrite In_set_add. intros [->|Hx]; [|apply Hw; exact Hx].
      apply (Hcalls (j, true)). left. reflexivity.
    + rewrite In_set_delete. intros [_ Hx]. apply Hw. exact Hx.
  - intros c Hc. apply Hcalls. right. exact Hc.
Qed.

(** C3 as stated fails: [toggleObjectSelection] looks neither at
    [currentScene] nor at the objects of the scene.  With no scene loaded
    the call selects the id, and with a scene loaded it selects an id that
    no object of the scene has. *)
Lemma toggle_ignores_scene :
  let unloaded := fresh Sample.page in
  let loaded := world_of (resume (loadScene "A" (fresh Sample.page))
                            (Sample.loaded Sample.sceneA)) in
  currentScene unloaded = None
  /\ selectedObjects (toggleObjectSelection "o1" true unloaded) = ["o1"%string]
  /\ selectedObjects (toggleObjectSelection "o1" true unloaded)
     <> selectedObjects unloaded
  /\ currentScene loaded = Some Sample.sceneA
  /\ find_object "zz" Sample.sceneA = None
  /\ selectedObjects (toggleObjectSelection "zz" true loaded) = ["zz"%string].
Proof. vm_compute. repeat split. discriminate. Qed.

(** C3, amended. After any sequence of [toggleObjectSelection] calls an
    id is selected exactly when the last call that names it had
    [included = true], or no call names it and it was selected before.
    The calls do not touch [currentScene], and they do not consult it:
    the statement holds whether or not a scene is loaded and for ids the
    scene does not have. *)
Theorem toggle_sequence_selection (calls : list (string * bool)) :
  forall (w : World) (i : string),
    (In i (selectedObjects (toggles calls w))
     <-> match last_toggle i calls with
         | Some included => included = true
         | None => In i (selectedObjects w)
         end)
    /\ currentScene (toggles calls w) = currentScene w.
Proof.
  induction calls as [|[j b] calls IH]; intros w i.
  - cbn. split; [reflexivity|reflexivity].
  - rewrite toggles_cons. cbn [last_toggle].
    destruct (IH (toggleObjectSelection j b w) i) as [IHsel IHscene].
    split.
    + rewrite IHsel. destruct (last_toggle i calls) as [b'|]; [reflexivity|].
      rewrite toggleObjectSelection_selection.
      destruct (String.eqb_spec i j) as [->|Hne].
      * destruct b.
        -- rewrite In_set_add. split; auto.
        -- rewrite In_set_delete. split; [intros [H _]; contradiction|discriminate].
      * destruct b.
        -- rewrite In_set_add. split; [intros [H|H]; [contradiction|exact H]|auto].
        -- rewrite In_set_delete. split; [intros [_ H]; exact H|auto].
    + rewrite IHscene. apply toggleObjectSelection_scene.
Qed.

(** ** Selective export *)

(** C5 as stated fails.  [executeExport('selective')] does not check the
    selection: with a scene loaded and nothing selected it sends the
    export request with an empty [object_ids].  And [showExportModal],
    which does check it, says "No scene selected" rather than "No objects
    selected" when no scene is loaded. *)
Lemma empty_selective_export_is_sent :
  let loaded := world_of (resume (loadScene "s3" (fresh Sample.page))
                            (Sample.loaded Sample.scene3)) in
  selectedObjects loaded = []
  /\ fetches (world_of (executeExport "selective" loaded))
     = fetches loaded
       ++ [ mkRequest POST "/api/scene/s3/export"
              (ExportBody (mkExportData "selective" "obj" None None (Some [])
                             (Some true))) ]
  /\ selectedObjects (fresh Sample.page) = []
  /\ notifications (world_of (showExportModal "selective" (fresh Sample.page)))
     = [("No scene selected"%string, Error)].
Proof. vm_compute. repeat split. Qed.

(** C5, amended. [showExportModal('selective')], called while the
    selection is empty, returns at once, sends nothing, opens no dialog
    and shows one error: "No objects selected for selective export" when
    a scene is loaded, "No scene selected" when none is. *)
Theorem showExportModal_selective_empty_selection (w : World) :
  selectedObjects w = [] ->
  exists w',
    showExportModal "selective" w = Done w' (Returned tt)
    /\ reports (match currentScene w with
                | Some _ => "No objects selected for selective export"
                | None => "No scene selected"
                end)%string w w'.
Proof.
  intros Hempty. unfold showExportModal, bind, read. cbn [bind_task].
  destruct (currentScene w) as [s|].
  - change (String.eqb "selective" "individual") with false.
    change (String.eqb "selective" "selective") with true.
    cbn iota. cbn [bind_task]. rewrite Hempty. cbn [List.length Nat.eqb].
    eexists. split; [reflexivity|apply showError_reports].
  - eexists. split; [reflexivity|apply showError_reports].
Qed.

Lemma showExportModal_selective_empty_selection_witness :
  let loaded := world_of (resume (loadScene "s3" (fresh Sample.page))
                            (Sample.loaded Sample.scene3)) in
  selectedObjects loaded = []
  /\ exists w',
       showExportModal "selective" loaded = Done w' (Returned tt)
       /\ reports (match currentScene loaded with
                   | Some _ => "No objects selected for selective export"
                   | None => "No scene selected"
                   end)%string loaded w'.
Proof.
  split; [reflexivity|].
  apply (showExportModal_selective_empty_selection
           (world_of (resume (loadScene "s3" (fresh Sample.page))
                        (Sample.loaded Sample.scene3)))).
  reflexivity.
Defined.

(** C9. Load a scene whose objects are o1, o2, o3, toggle o1 and then
    o3 into the selection, and call [executeExport('selective')]: the
    export request is sent for that scene, and the [object_ids] of its
    body are exactly [o1; o3], in the order they were selected; the
    format is the one chosen in the dialog. *)
Theorem selective_export_object_ids (w0 : World) (s : Scene) (ok : bool) :
  map id (objects s) = ["o1"; "o2"; "o3"]%string ->
  JS.truthy (scene_id s) = true ->
  let w1 := world_of (resume (loadScene (scene_id s) w0)
                        (Json ok (mkData true None (SceneData s)))) in
  let w2 := toggleObjectSelection "o3" true (toggleObjectSelection "o1" true w1) in
  currentScene w2 = Some s
  /\ selectedObjects w2 = ["o1"; "o3"]%string
  /\ exists w3 k e,
       executeExport "selective" w2
       = Await w3 (mkRequest POST ("/api/scene/" ++ scene_id s ++ "/export")%string
                     (ExportBody e)) k
       /\ export_type e = "selective"%string
       /\ export_format e = JS.or_else (get_value (doc w2) "export-format") "obj"
       /\ object_id e = None
       /\ object_ids e = Some ["o1"; "o3"]%string
       /\ fetches w3
          = fetches w2
            ++ [mkRequest POST ("/api/scene/" ++ scene_id s ++ "/export")%string
                  (ExportBody e)].
Proof.
  intros _ Ht.
  destruct (loadScene_success_clears_selection (scene_id s) w0 ok
              (mkData true None (SceneData s))
              (world_of (loadScene (scene_id s) w0)) Ht eq_refl)
    as (w1 & Hrun & Hscene & Hsel).
  cbv zeta. unfold resume. rewrite Hrun. cbn [world_of].
  assert (Hscene2 : currentScene (toggleObjectSelection "o3" true
                                    (toggleObjectSelection "o1" true w1)) = Some s).
  { rewrite !toggleObjectSelection_scene. exact Hscene. }
  assert (Hsel2 : selectedObjects (toggleObjectSelection "o3" true
                                     (toggleObjectSelection "o1" true w1))
                  = ["o1"; "o3"]%string).
  { rewrite !toggleObjectSelection_selection, Hsel. reflexivity. }
  split; [exact Hscene2|]. split; [exact Hsel2|].
  destruct (executeExport_selective_sends _ Hscene2)
    as (w3 & k & e & Hcall & Htype & Hfmt & Hid & Hids & Hfetch).
  exists w3, k, e. rewrite Hsel2 in Hids. repeat split; assumption.
Qed.

Lemma selective_export_object_ids_witness :
  map id (objects Sample.scene3) = ["o1"; "o2"; "o3"]%string
  /\ JS.truthy (scene_id Sample.scene3) = true
  /\ exists w3 k e,
       executeExport "selective"
         (toggleObjectSelection "o3" true
            (toggleObjectSelection "o1" true
               (world_of (resume (loadScene "s3" (fresh Sample.page_exporting))
                            (Sample.loaded Sample.scene3)))))
       = Await w3 (mkRequest POST "/api/scene/s3/export" (ExportBody e)) k
       /\ export_type e = "selective"%string
       /\ export_format e = "stl"%string
       /\ object_id e = None
       /\ object_ids e = Some ["o1"; "o3"]%string.
Proof.
  split; [reflexivity|]. split; [reflexivity|].
  destruct (selective_export_object_ids (fresh Sample.page_exporting) Sample.scene3 true
              eq_refl eq_refl)
    as (_ & _ & w3 & k & e & Hcall & Htype & Hfmt & Hid & Hids & _).
  exists w3, k, e. repeat split; assumption.
Defined.

(** ** Creating a scene *)

(** Every character that [chars] cuts out has at least one byte. *)
Lemma chars_from_nonempty s : forall k cur ch,
  In ch (JS.chars_from k cur s) -> ch <> EmptyString.
Proof.
  induction s as [|c r IH]; intros k cur ch; cbn [JS.chars_from].
  - destruct cur; cbn [In]; [intros []|intros [<-|[]]; discriminate].
  - destruct k as [|k].
    + destruct cur; cbn [In].
      * apply IH.
      * intros [<-|Hin]; [discriminate|]. eapply IH. exact Hin.
    + apply IH.
Qed.

Lemma trim_start_nil l : JS.trim_start l = [] <-> forallb JS.is_space l = true.
Proof.
  induction l as [|ch r IH]; cbn [JS.trim_start forallb]; [split; reflexivity|].
  destruct (JS.is_space ch); cbn [andb]; [exact IH|split; discriminate].
Qed.

Lemma trim_start_incl l ch : In ch (JS.trim_start l) -> In ch l.
Proof.
  induction l as [|x r IH]; cbn [JS.trim_start]; [intros []|].
  destruct (JS.is_space x); [intros H; right; exact (IH H)|intros H; exact H].
Qed.

Lemma join_nil l : (forall ch, In ch l -> ch <> EmptyString) -> JS.join l = EmptyString -> l = [].
Proof.
  destruct l as [|x r]; [reflexivity|]. intros Hne Hjoin. exfalso.
  apply (Hne x); [left; reflexivity|]. cbn [JS.join fold_right] in Hjoin.
  destruct x; [reflexivity|discriminate Hjoin].
Qed.

(** A string trims to the empty string exactly when every character of it
    is one that [trim] strips. *)
Lemma trim_blank s :
  JS.trim s = EmptyString <-> forallb JS.is_space (JS.chars s) = true.
Proof.
  unfold JS.trim, JS.trim_end. split.
  - intros H. apply join_nil in H.
    + apply (f_equal (@rev string)) in H. rewrite rev_involutive in H. cbn [rev] in H.
      apply trim_start_nil in H. rewrite forallb_forall in H.
      destruct (JS.trim_start (JS.chars s)) as [|ch r] eqn:Hstart.
      * apply trim_start_nil. exact Hstart.
      * exfalso. assert (Hch : JS.is_space ch = true).
        { apply H. rewrite <- in_rev. left. reflexivity. }
        clear H. revert Hstart. generalize (JS.chars s) as l.
        induction l as [|x l IH]; cbn [JS.trim_start]; [discriminate|].
        destruct (JS.is_space x) eqn:Hx; [exact IH|].
        intros Heq. injection Heq as -> _. congruence.
    + intros ch Hin. rewrite <- in_rev in Hin. apply trim_start_incl in Hin.
      rewrite <- in_rev in Hin. apply trim_start_incl in Hin.
      unfold JS.chars in Hin. eapply chars_from_nonempty. exact Hin.
  - intros H. apply trim_start_nil in H. rewrite H. reflexivity.
Qed.

(** Each white space character of ECMAScript, the Unicode ones included,
    trims to the empty string, also between blanks; a letter whose last
    byte is the last byte of U+00A0 is kept. *)
Lemma trim_strips_unicode_white_space :
  (forall ch, In ch JS.white_space ->
              JS.trim ch = EmptyString
              /\ JS.trim (" " ++ ch ++ " ")%string = EmptyString)
  /\ JS.trim (JS.bytes [194; 160; 32; 68; 194; 160; 101; 9; 226; 128; 175])
     = JS.bytes [68; 194; 160; 101]
  /\ JS.trim (JS.bytes [195; 160]) = JS.bytes [195; 160].
Proof.
  split; [|vm_compute; split; reflexivity].
  intros ch Hin. unfold JS.white_space in Hin. cbn [map] in Hin.
  repeat (destruct Hin as [<-|Hin]; [vm_compute; split; reflexivity|]).
  destruct Hin.
Qed.

(** C6 as stated fails: [createScene] sends whatever name it is given.
    [createScene('', '')] posts the scene, and so does a name made of
    blanks. *)
Lemma createScene_blank_name_is_sent :
  JS.trim EmptyString = EmptyString
  /\ fetches (world_of (createScene EmptyString (Some EmptyString)
                          (fresh Sample.page)))
     = [ mkRequest POST "/api/scenes" (CreateBody EmptyString (Some EmptyString)) ]
  /\ JS.trim "   " = EmptyString
  /\ fetches (world_of (createScene "   " None (fresh Sample.page)))
     = [ mkRequest POST "/api/scenes" (CreateBody "   " None) ].
Proof. vm_compute. repeat split. Qed.

(** C6, amended. The check is in [submitCreateScene], the handler of the
    create-scene dialog: when the name field is missing or its value
    trims to the empty string, the handler returns at once with the error
    "Scene name is required", sends nothing and leaves the session as it
    was. *)
Theorem submitCreateScene_rejects_blank_name (w : World) :
  match get_value (doc w) "scene-name" with
  | Some v => JS.trim v = EmptyString
  | None => True
  end ->
  exists w',
    submitCreateScene w = Done w' (Returned tt)
    /\ reports "Scene name is required" w w'.
Proof.
  intros Hblank. unfold submitCreateScene, bind, read. cbn [bind_task].
  destruct (get_value (doc w) "scene-name") as [v|]; cbn [option_map].
  - rewrite Hblank. cbn [JS.truthy negb].
    eexists. split; [reflexivity|apply showError_reports].
  - eexists. split; [reflexivity|apply showError_reports].
Qed.

(* The name typed here is a blank, a no-break space (U+00A0) and a tab. *)
Lemma submitCreateScene_rejects_blank_name_witness :
  let typed := JS.bytes [32; 194; 160; 9] in
  match get_value (doc (fresh (Sample.page_creating typed))) "scene-name" with
  | Some v => JS.trim v = EmptyString
  | None => True
  end
  /\ exists w',
       submitCreateScene (fresh (Sample.page_creating typed)) = Done w' (Returned tt)
       /\ reports "Scene name is required" (fresh (Sample.page_creating typed)) w'.
Proof.
  cbv zeta. split; [reflexivity|].
  apply (submitCreateScene_rejects_blank_name
           (fresh (Sample.page_creating (JS.bytes [32; 194; 160; 9])))).
  reflexivity.
Defined.

(** What one call of [createScene] does: it posts the scene and suspends;
    whatever the reply, it then returns without throwing, the id of the
    created scene when the reply carries [success: true] and a scene, and
    null otherwise; a null return comes with an error notification as the
    last one shown, a returned id with the success notification. *)
Lemma createScene_spec nm desc w :
  exists k,
    createScene nm desc w
    = Await (emit (Fetch (mkRequest POST "/api/scenes" (CreateBody nm desc))) w)
        (mkRequest POST "/api/scenes" (CreateBody nm desc)) k
    /\ forall resp w',
         exists w'',
           k resp w' = Done w'' (Returned (created_id resp))
           /\ currentScene w'' = currentScene w'
           /\ selectedObjects w'' = selectedObjects w'
           /\ doc w'' = doc w'
           /\ match created_id resp with
              | Some _ =>
                  notifications w''
                  = notifications w'
                    ++ [(("Scene " ++ JS.dquote ++ nm ++ JS.dquote
                            ++ " created successfully!")%string, Success)]
              | None =>
                  exists shown msg, notifications w'' = shown ++ [(msg, Error)]
              end.
Proof.
  unfold createScene, try_catch, bind, fetch_json.
  cbn [bind_task catch_task].
  eexists. split; [reflexivity|].
  intros [|ok d] w'; cbn [bind_task catch_task created_id].
  - unfold act. cbn [bind_task ret]. eexists. split; [reflexivity|].
    repeat split.
    exists (notifications w'), "Failed to create scene"%string.
    unfold notifications, showError, showNotification, emit. cbn [trace].
    rewrite !notifications_of_app. cbn. rewrite app_nil_r. reflexivity.
  - destruct (success d).
    + unfold act, loadScenesList_detached, loadScenesList, try_catch, bind, fetch_json.
      cbn [bind_task catch_task].
      destruct (data_scene d) as [sc|]; cbn [member ret throw bind_task catch_task option_map].
      * eexists. split; [reflexivity|]. repeat split.
        unfold notifications, detach, showSuccess, showNotification, emit. cbn [trace].
        rewrite !notifications_of_app. cbn. rewrite app_nil_r. reflexivity.
      * eexists. split; [reflexivity|]. repeat split.
        eexists _, "Failed to create scene"%string.
        unfold notifications, showError, showNotification, emit. cbn [trace].
        rewrite !notifications_of_app. reflexivity.
    + unfold act. cbn [bind_task ret]. eexists. split; [reflexivity|].
      repeat split.
      exists (notifications w'), (JS.or_else (error d) "Failed to create scene").
      unfold notifications, showError, showNotification, emit. cbn [trace].
      rewrite !notifications_of_app. reflexivity.
Qed.

(** C10 as stated fails: a non-null id is not enough for the auto-load.
    On a page without the scenes drop-down [createScene] returns the new
    id and [submitCreateScene] finishes without loading the scene; and an
    empty id, which is not null, is not loaded either. *)
Lemma created_scene_not_loaded_without_dropdown :
  let w := fresh Sample.page_without_select in
  let reply := Sample.created "s1" in
  let submitted := resume (submitCreateScene w) reply in
  let w0 := fresh (Sample.page_creating "Desk Setup") in
  let submitted0 := resume (submitCreateScene w0) (Sample.created EmptyString) in
  outcome_of (resume (createScene "Desk Setup" None w) reply)
  = Some (Returned (Some "s1"%string))
  /\ outcome_of submitted = Some (Returned tt)
  /\ fetches (world_of submitted)
     = [ mkRequest POST "/api/scenes" (CreateBody "Desk Setup" None);
         mkRequest GET "/api/scenes" NoBody ]
  /\ currentScene (world_of submitted) = None
  /\ outcome_of (resume (createScene "Desk Setup" (Some "office"%string) w0)
                   (Sample.created EmptyString))
     = Some (Returned (Some EmptyString))
  /\ outcome_of submitted0 = Some (Returned tt)
  /\ fetches (world_of submitted0)
     = [ mkRequest POST "/api/scenes" (CreateBody "Desk Setup" (Some "office"%string));
         mkRequest GET "/api/scenes" NoBody ].
Proof. vm_compute. repeat split. Qed.

(** C10, amended. [createScene] never throws: whatever the reply, it
    returns, null when the fetch throws, when the reply carries
    [success: false] or when it carries no scene, each time after an
    error notification, and the id of the created scene otherwise, after
    the success notification.  [submitCreateScene], once the name has
    passed its check, goes on to [loadScene] of the returned id exactly
    when that id is truthy (neither null nor empty) and the page has the
    scenes drop-down; otherwise it returns without another request. *)
Theorem createScene_returns_and_submit_autoloads :
  (forall nm desc w resp w',
      exists w'',
        resume_in (createScene nm desc w) resp w'
        = Done w'' (Returned (created_id resp))
        /\ match created_id resp with
           | Some _ =>
               notifications w''
               = notifications w'
                 ++ [(("Scene " ++ JS.dquote ++ nm ++ JS.dquote
                         ++ " created successfully!")%string, Success)]
           | None => exists shown msg, notifications w'' = shown ++ [(msg, Error)]
           end)
  /\ (forall w nm resp w',
         option_map JS.trim (get_value (doc w) "scene-name") = Some nm ->
         JS.truthy nm = true ->
         exists w'',
           resume_in
             (createScene nm
                (option_map JS.trim (get_value (doc w) "scene-description"))
                (closeModal w)) resp w'
           = Done w'' (Returned (created_id resp))
           /\ (autoloads (created_id resp) w'' = true ->
               exists i k,
                 created_id resp = Some i
                 /\ resume_in (submitCreateScene w) resp w'
                    = loadScene i (emit (SetValue "scene-select" i) w'')
                 /\ loadScene i (emit (SetValue "scene-select" i) w'')
                    = Await (emit (Fetch (mkRequest GET ("/api/scenes/" ++ i)%string
                                            NoBody))
                               (emit (SetValue "scene-select" i) w''))
                        (mkRequest GET ("/api/scenes/" ++ i)%string NoBody) k)
           /\ (autoloads (created_id resp) w'' = false ->
               resume_in (submitCreateScene w) resp w' = Done w'' (Returned tt))).
Proof.
  split.
  - intros nm desc w resp w'.
    destruct (createScene_spec nm desc w) as (k & Hcall & Hk).
    destruct (Hk resp w') as (w'' & Hrun & _ & _ & _ & Hnote).
    exists w''. rewrite Hcall. cbn [resume_in]. split; assumption.
  - intros w nm resp w' Hname Htruthy.
    destruct (createScene_spec nm
                (option_map JS.trim (get_value (doc w) "scene-description"))
                (closeModal w)) as (k & Hcall & Hk).
    destruct (Hk resp w') as (w'' & Hrun & _ & _ & _ & _).
    exists w''. split; [rewrite Hcall; exact Hrun|].
    unfold submitCreateScene, bind, read, act. cbn [bind_task].
    rewrite Hname, Htruthy. cbn [negb bind_task]. rewrite Hcall.
    cbn [bind_task resume_in]. rewrite Hrun. cbn [bind_task].
    unfold autoloads. destruct (created_id resp) as [i|]; cbn [JS.truthy_opt].
    + destruct (JS.truthy i) eqn:Hi; cbn [andb bind_task].
      * destruct (present (doc w'') "scene-select"); split; intros Hauto;
          try discriminate Hauto; try reflexivity.
        destruct (loadScene_spec i (emit (SetValue "scene-select" i) w'') Hi)
          as (kl & Hload & _).
        exists i, kl. repeat split. exact Hload.
      * split; intros Hauto; [discriminate Hauto|reflexivity].
    + cbn [andb]. split; intros Hauto; [discriminate Hauto|reflexivity].
Qed.

Lemma createScene_returns_and_submit_autoloads_witness :
  let w := fresh (Sample.page_creating "  Desk Setup ") in
  let reply := Sample.created "s1" in
  option_map JS.trim (get_value (doc w) "scene-name") = Some "Desk Setup"%string
  /\ JS.truthy "Desk Setup" = true
  /\ exists w'',
       resume_in (createScene "Desk Setup" (Some "office"%string) (closeModal w))
         reply (world_of (submitCreateScene w))
       = Done w'' (Returned (Some "s1"%string))
       /\ (autoloads (Some "s1"%string) w'' = true ->
           exists i k,
             Some "s1"%string = Some i
             /\ resume_in (submitCreateScene w) reply (world_of (submitCreateScene w))
                = loadScene i (emit (SetValue "scene-select" i) w'')
             /\ loadScene i (emit (SetValue "scene-select" i) w'')
                = Await (emit (Fetch (mkRequest GET ("/api/scenes/" ++ i)%string NoBody))
                           (emit (SetValue "scene-select" i) w''))
                    (mkRequest GET ("/api/scenes/" ++ i)%string NoBody) k)
       /\ (autoloads (Some "s1"%string) w'' = false ->
           resume_in (submitCreateScene w) reply (world_of (submitCreateScene w))
           = Done w'' (Returned tt)).
Proof.
  cbv zeta. split; [reflexivity|]. split; [reflexivity|].
  exact (proj2 createScene_returns_and_submit_autoloads
           (fresh (Sample.page_creating "  Desk Setup ")) "Desk Setup"%string
           (Sample.created "s1")
           (world_of (submitCreateScene (fresh (Sample.page_creating "  Desk Setup "))))
           eq_refl eq_refl).
Defined.

(** ** Scene preview *)

Lemma previews_emit e w :
  previews (emit e w)
  = previews w ++ match e with
                  | SetInnerHTML _ (PreviewImage u) => [u]
                  | _ => []
                  end.
Proof.
  unfold previews, emit; cbn [trace]. rewrite previews_of_app. cbn.
  apply (f_equal (app _)). apply app_nil_r.
Qed.

Lemma previews_set_doc d w : previews (set_doc d w) = previews w.
Proof. reflexivity. Qed.

(** With a scene loaded, [generateScenePreview] posts the preview request
    and, on a reply with [success: true], writes the [preview_url] of the
    reply into the preview container as it is: nothing is appended to it. *)
Lemma generateScenePreview_spec w s :
  currentScene w = Some s ->
  exists w1 k,
    generateScenePreview w
    = Await w1 (mkRequest POST ("/api/scenes/" ++ scene_id s ++ "/preview")%string
                  NoBody) k
    /\ forall ok d w',
         success d = true ->
         exists w'',
           k (Json ok d) w' = Done w'' (Returned tt)
           /\ previews w''
              = previews w'
                ++ (if present (doc w') "scene-preview-container"
                    then [JS.interpolate (data_preview_url d)]
                    else []).
Proof.
  intros Hs. unfold generateScenePreview, bind, read. cbn [bind_task].
  rewrite Hs. unfold try_finally, try_catch, bind, act, read, fetch_json.
  cbn [bind_task catch_task finally_task].
  destruct (present (doc w) "generate-preview-btn");
    cbn [currentScene emit]; rewrite Hs;
    cbn [member ret bind_task catch_task finally_task];
    (do 2 eexists; split; [reflexivity|]);
    intros ok d w' Hok; cbn [bind_task catch_task finally_task]; rewrite Hok;
    cbn [bind_task catch_task finally_task];
    (eexists; split; [reflexivity|]);
    unfold displayScenePreview, showSuccess, showNotification;
    destruct (present (doc w') "scene-preview-container"); cbn [negb];
    rewrite ?previews_emit, ?previews_set_doc, ?previews_emit, ?app_nil_r,
      <- ?app_assoc; reflexivity.
Qed.

(** C7. The session below loads a scene and generates its preview twice;
    the server answers both requests with the same [preview_url].  The two
    image sources written into the preview container are that URL, twice:
    no cache-busting suffix is added and the two are not distinct. *)
Theorem scene_preview_url_is_not_cache_busted :
  let url := "/static/previews/s3.png"%string in
  let w1 := world_of (resume (loadScene "s3" (fresh Sample.page))
                        (Sample.loaded Sample.scene3)) in
  let w2 := world_of (resume (generateScenePreview w1) (Sample.preview url)) in
  let w3 := world_of (resume (generateScenePreview w2) (Sample.preview url)) in
  fetches w3
  = [ mkRequest GET "/api/scenes/s3" NoBody;
      mkRequest POST "/api/scenes/s3/preview" NoBody;
      mkRequest POST "/api/scenes/s3/preview" NoBody ]
  /\ previews w3 = [url; url].
Proof. vm_compute. repeat split. Qed.

(** ** Framing with requests, notifications and dialogs *)

Lemma advances_refl w : advances [] [] [] w w.
Proof. constructor; rewrite ?app_nil_r; reflexivity. Qed.

Lemma advances_trans f1 n1 m1 f2 n2 m2 w1 w2 w3 :
  advances f1 n1 m1 w1 w2 ->
  advances f2 n2 m2 w2 w3 ->
  advances (f1 ++ f2) (n1 ++ n2) (m1 ++ m2) w1 w3.
Proof.
  intros [a b c d e] [a' b' c' d' e'].
  constructor; rewrite ?app_assoc; congruence.
Qed.

Lemma advances_as f n m f' n' m' w w' :
  advances f n m w w' -> f = f' -> n = n' -> m = m' -> advances f' n' m' w w'.
Proof. intros H -> -> ->. exact H. Qed.

Lemma same_advances w w' : same_session w w' -> advances [] [] [] w w'.
Proof. intros [a b c d e]. constructor; rewrite ?app_nil_r; assumption. Qed.

Lemma emit_advances e w :
  advances (fetches_of [e]) (notifications_of [e]) (modals_of [e]) w (emit e w).
Proof.
  constructor; try reflexivity; unfold fetches, notifications, modals, emit;
    cbn [trace].
  - apply fetches_of_app.
  - apply notifications_of_app.
  - apply modals_of_app.
Qed.

Lemma set_doc_advances d w : advances [] [] [] w (set_doc d w).
Proof. apply same_advances, set_doc_same. Qed.

Lemma detach_advances d w : advances [] [] [] w (detach d w).
Proof. constructor; rewrite ?app_nil_r; reflexivity. Qed.

Lemma showNotification_advances msg sev w :
  advances [] [(msg, sev)] [] w (showNotification msg sev w).
Proof. apply (emit_advances (Notify msg sev)). Qed.

(** Follows a world built from the page helpers back to where it started,
    collecting what was sent and shown on the way. *)
Ltac advance :=
  lazymatch goal with
  | |- advances _ _ _ ?w ?w => apply advances_refl
  | |- advances _ _ _ _ (emit _ _) =>
      eapply advances_trans; [|apply emit_advances]; advance
  | |- advances _ _ _ _ (set_doc _ _) =>
      eapply advances_trans; [|apply set_doc_advances]; advance
  | |- advances _ _ _ _ (detach _ _) =>
      eapply advances_trans; [|apply detach_advances]; advance
  | |- advances _ _ _ _ (showError _ _) =>
      eapply advances_trans; [|apply showNotification_advances]; advance
  | |- advances _ _ _ _ (showSuccess _ _) =>
      eapply advances_trans; [|apply showNotification_advances]; advance
  | |- advances _ _ _ _ (closeModal _) =>
      eapply advances_trans; [|apply same_advances, closeModal_same]; advance
  | |- advances _ _ _ _ (hideLoading _) =>
      eapply advances_trans; [|apply same_advances, hideLoading_same]; advance
  | |- advances _ _ _ _ (showLoading _ _) =>
      eapply advances_trans; [|apply same_advances, showLoading_same]; advance
  | |- advances _ _ _ _ (set_disabled _ _ _) =>
      eapply advances_trans; [|apply same_advances, set_disabled_same]; advance
  | |- advances _ _ _ _ (set_text _ _ _) =>
      eapply advances_trans; [|apply same_advances, set_text_same]; advance
  | |- advances _ _ _ _ (updateSceneDisplay _ _) =>
      eapply advances_trans; [|apply same_advances, updateSceneDisplay_same]; advance
  | |- advances _ _ _ _ (showModal _ _ _) =>
      unfold showModal; advance
  end.

Ltac advances_by :=
  eapply advances_as; [advance|cbn; rewrite ?app_nil_r; reflexivity ..].

(** Runs a method body through the combinators. *)
Ltac run :=
  unfold try_finally, try_catch, bind, act, read, fetch_json;
  cbn [bind_task catch_task finally_task member ret throw].

Ltac step := cbn [bind_task catch_task finally_task member ret throw].

(** ** The scenes list *)

(** X1. [loadScenesList] sends one GET of the list and never throws.
    Whatever the reply, it leaves the scene, the selection and the dialogs
    alone; it is silent when the reply is a success that it can use (it
    carries [scenes], or the page has no drop-down to fill), and shows
    the one error "Failed to load scenes list" in every other case. *)
Theorem loadScenesList_outcome (w : World) :
  exists k,
    loadScenesList w
    = Await (emit (Fetch (mkRequest GET "/api/scenes" NoBody)) w)
        (mkRequest GET "/api/scenes" NoBody) k
    /\ forall resp w',
         exists w'',
           k resp w' = Done w'' (Returned tt)
           /\ if accepted resp
                 && (negb (present (doc w') "scene-select")
                     || match reply_scenes resp with Some _ => true | None => false end)
              then advances [] [] [] w' w''
              else advances [] [("Failed to load scenes list"%string, Error)] [] w' w''.
Proof.
  unfold loadScenesList. run. eexists. split; [reflexivity|].
  intros [|ok d] w'; step; cbn [accepted reply_scenes andb].
  - eexists. split; [reflexivity|]. advances_by.
  - destruct (success d); cbn [andb]; step.
    + unfold updateScenesDropdown. run.
      destruct (present (doc w') "scene-select"); cbn [negb orb]; step.
      * destruct (data_scenes d) as [l|]; step;
          (eexists; split; [reflexivity|]); advances_by.
      * eexists. split; [reflexivity|]. advances_by.
    + eexists. split; [reflexivity|]. advances_by.
Qed.

(** X2. On a success reply that carries the list, [loadScenesList]
    rebuilds the drop-down from the reply: it first resets it to the
    placeholder and then writes the options of the reply, so no option of
    an earlier list survives; on a page without the drop-down it writes
    nothing at all. *)
Theorem loadScenesList_rebuilds_dropdown
        (w w' : World) (ok : bool) (d : Data) (l : list SceneSummary) :
  success d = true ->
  data_scenes d = Some l ->
  exists w'',
    resume_in (loadScenesList w) (Json ok d) w' = Done w'' (Returned tt)
    /\ trace w''
       = trace w'
         ++ (if present (doc w') "scene-select"
             then [ SetInnerHTML "scene-select" (SceneOptions []);
                    SetInnerHTML "scene-select" (SceneOptions l) ]
             else []).
Proof.
  intros Hok Hl. unfold loadScenesList. run. cbn [resume_in]. step.
  rewrite Hok. unfold updateScenesDropdown. run.
  destruct (present (doc w') "scene-select"); cbn [negb]; step.
  - rewrite Hl. step. eexists. split; [reflexivity|].
    cbn [trace emit]. rewrite <- app_assoc. reflexivity.
  - eexists. split; [reflexivity|]. rewrite app_nil_r. reflexivity.
Qed.

Lemma loadScenesList_rebuilds_dropdown_witness :
  let l := [mkSummary "A" "Scene A" 1; mkSummary "B" "Scene B" 2]%string in
  success (mkData true None (ScenesData l)) = true
  /\ data_scenes (mkData true None (ScenesData l)) = Some l
  /\ exists w'',
       resume_in (loadScenesList (fresh Sample.page)) (Sample.listed l)
         (fresh Sample.page) = Done w'' (Returned tt)
       /\ trace w''
          = [ SetInnerHTML "scene-select" (SceneOptions []);
              SetInnerHTML "scene-select" (SceneOptions l) ].
Proof.
  cbv zeta. split; [reflexivity|]. split; [reflexivity|].
  exact (loadScenesList_rebuilds_dropdown (fresh Sample.page) (fresh Sample.page) true
           (mkData true None
              (ScenesData [mkSummary "A" "Scene A" 1; mkSummary "B" "Scene B" 2]%string))
           eq_refl eq_refl).
Defined.

(** ** The dialog and the loading overlay *)

Lemma hideLoading_absent w : present (doc (hideLoading w)) "loading-overlay" = false.
Proof.
  unfold hideLoading. destruct (present (doc w) "loading-overlay") eqn:H;
    [reflexivity|exact H].
Qed.

Lemma showLoading_present msg w :
  present (doc (showLoading msg w)) "loading-overlay" = true.
Proof. reflexivity. Qed.

Lemma closeModal_absent w : present (doc (closeModal w)) "scene-modal" = false.
Proof.
  unfold closeModal. destruct (present (doc w) "scene-modal") eqn:H;
    [reflexivity|exact H].
Qed.

Lemma showModal_present title h w :
  present (doc (showModal title h w)) "scene-modal" = true.
Proof. reflexivity. Qed.

Lemma hideLoading_keeps_modal w :
  present (doc (hideLoading w)) "scene-modal" = present (doc w) "scene-modal".
Proof.
  unfold hideLoading. destruct (present (doc w) "loading-overlay"); reflexivity.
Qed.

Lemma showLoading_keeps_modal msg w :
  present (doc (showLoading msg w)) "scene-modal" = present (doc w) "scene-modal".
Proof. unfold showLoading. cbn. apply hideLoading_keeps_modal. Qed.

(** ** Validation *)

(** X3. With a scene loaded, [validateScene] shows the loading overlay
    and posts the validation request for that scene, always with
    [auto_fix: false].  Whatever the reply, it then returns without
    throwing, takes the overlay away, and leaves the scene and the
    selection alone: a reply with [success: true] and a report opens the
    results dialog with that report (the HTTP status is not consulted);
    every other reply shows one error, the server's text when the reply
    says [success: false] and has one, "Validation failed" otherwise. *)
Theorem validateScene_completes (w : World) (s : Scene) :
  currentScene w = Some s ->
  exists w1 k,
    validateScene w
    = Await w1 (mkRequest POST ("/api/scenes/" ++ scene_id s ++ "/validate")%string
                  (ValidateBody false)) k
    /\ advances [mkRequest POST ("/api/scenes/" ++ scene_id s ++ "/validate")%string
                   (ValidateBody false)] [] [] w w1
    /\ present (doc w1) "loading-overlay" = true
    /\ forall resp w',
         exists w'',
           k resp w' = Done w'' (Returned tt)
           /\ present (doc w'') "loading-overlay" = false
           /\ match (if accepted resp then reply_validation resp else None) with
              | Some v =>
                  advances [] [] [("Scene Validation Results"%string, ValidationResults v)]
                    w' w''
              | None =>
                  advances []
                    [((if accepted resp then "Validation failed"
                       else error_text "Validation failed" resp)%string, Error)] []
                    w' w''
              end.
Proof.
  intros Hs.
  assert (H1 : currentScene (showLoading "Validating scene..." w) = Some s).
  { rewrite (same_scene (showLoading_same _ _)). exact Hs. }
  unfold validateScene, bind, read. cbn [bind_task]. rewrite Hs. run.
  rewrite H1. step. do 2 eexists. split; [reflexivity|].
  split; [advances_by|]. split; [reflexivity|].
  intros [|ok d] w'; step; cbn [accepted reply_validation error_text].
  - eexists. split; [reflexivity|]. split; [apply hideLoading_absent|advances_by].
  - destruct (success d); step.
    + unfold showValidationResults. run.
      destruct (data_validation d) as [v|]; step;
        (eexists; split; [reflexivity|]);
        (split; [apply hideLoading_absent|advances_by]).
    + eexists. split; [reflexivity|]. split; [apply hideLoading_absent|advances_by].
Qed.

Lemma validateScene_completes_witness :
  let w := world_of (resume (loadScene "s3" (fresh Sample.page))
                       (Sample.loaded Sample.scene3)) in
  currentScene w = Some Sample.scene3
  /\ exists w1 k,
       validateScene w
       = Await w1 (mkRequest POST "/api/scenes/s3/validate" (ValidateBody false)) k
       /\ present (doc w1) "loading-overlay" = true.
Proof.
  cbv zeta. split; [reflexivity|].
  destruct (validateScene_completes
              (world_of (resume (loadScene "s3" (fresh Sample.page))
                           (Sample.loaded Sample.scene3)))
              (s := Sample.scene3) eq_refl)
    as (w1 & k & Hcall & _ & Hover & _).
  exists w1, k. split; assumption.
Defined.

(** ** Export *)

(** What the part of [executeExport] behind its local checks does with a
    scene loaded. *)
Lemma sendExport_replies e w s :
  currentScene w = Some s ->
  exists w1 k,
    sendExport e w
    = Await w1 (mkRequest POST ("/api/scene/" ++ scene_id s ++ "/export")%string
                  (ExportBody e)) k
    /\ advances [mkRequest POST ("/api/scene/" ++ scene_id s ++ "/export")%string
                   (ExportBody e)] [] [] w w1
    /\ present (doc w1) "scene-modal" = false
    /\ present (doc w1) "loading-overlay" = true
    /\ forall resp w',
         exists w'',
           k resp w' = Done w'' (Returned tt)
           /\ present (doc w'') "loading-overlay" = false
           /\ match (if accepted_with_status resp then reply_export resp else None) with
              | Some r =>
                  advances [] [] [("Export Complete"%string, ExportSuccess r)] w' w''
                  /\ present (doc w'') "scene-modal" = true
              | None =>
                  advances []
                    [((if accepted_with_status resp then "Export failed"
                       else error_text "Export failed" resp)%string, Error)] []
                    w' w''
              end.
Proof.
  intros Hs.
  assert (H1 : currentScene (showLoading "Exporting..." (closeModal w)) = Some s).
  { rewrite (same_scene (showLoading_same _ _)), (same_scene (closeModal_same _)).
    exact Hs. }
  unfold sendExport. run. rewrite H1. step.
  do 2 eexists. split; [reflexivity|]. split; [advances_by|].
  split; [cbn [doc emit]; rewrite showLoading_keeps_modal; apply closeModal_absent|].
  split; [reflexivity|].
  intros [|ok d] w'; step; cbn [accepted_with_status reply_export error_text].
  - eexists. split; [reflexivity|]. split; [apply hideLoading_absent|advances_by].
  - destruct (ok && success d); step.
    + unfold showExportSuccess. run.
      destruct (data_export d) as [r|]; step;
        (eexists; split; [reflexivity|]);
        (split; [apply hideLoading_absent|]); [|advances_by].
      split; [advances_by|]. rewrite hideLoading_keeps_modal. reflexivity.
    + eexists. split; [reflexivity|]. split; [apply hideLoading_absent|advances_by].
Qed.

(** X4. With a scene loaded, and an object chosen when the export is an
    individual one, [executeExport] closes the dialog, shows the loading
    overlay and posts the export request for that scene.  Whatever the
    reply, it then returns without throwing, takes the overlay away and
    leaves the scene and the selection alone.  It opens the "Export
    Complete" dialog only when the HTTP status is ok, the body says
    [success: true] and the body carries the result; a body that says
    [success: true] under a failing HTTP status is an error here, shown
    with the server's text or "Export failed". *)
Theorem executeExport_completes (exportType : string) (w : World) (s : Scene) :
  currentScene w = Some s ->
  (String.eqb exportType "individual" = true ->
   JS.truthy_opt (get_value (doc w) "individual-object-select") = true) ->
  exists w1 k e,
    executeExport exportType w
    = Await w1 (mkRequest POST ("/api/scene/" ++ scene_id s ++ "/export")%string
                  (ExportBody e)) k
    /\ export_type e = exportType
    /\ advances [mkRequest POST ("/api/scene/" ++ scene_id s ++ "/export")%string
                   (ExportBody e)] [] [] w w1
    /\ present (doc w1) "scene-modal" = false
    /\ present (doc w1) "loading-overlay" = true
    /\ forall resp w',
         exists w'',
           k resp w' = Done w'' (Returned tt)
           /\ present (doc w'') "loading-overlay" = false
           /\ match (if accepted_with_status resp then reply_export resp else None) with
              | Some r =>
                  advances [] [] [("Export Complete"%string, ExportSuccess r)] w' w''
                  /\ present (doc w'') "scene-modal" = true
              | None =>
                  advances []
                    [((if accepted_with_status resp then "Export failed"
                       else error_text "Export failed" resp)%string, Error)] []
                    w' w''
              end.
Proof.
  intros Hs Hobj. unfold executeExport, bind, read. cbn [bind_task].
  destruct (String.eqb exportType "individual").
  - cbn [bind_task]. rewrite (Hobj eq_refl). cbn [negb].
    match goal with
    | |- context [sendExport ?e w] =>
        destruct (sendExport_replies e w Hs) as (w1 & k & Hcall & Hrest)
    end.
    exists w1, k. eexists. split; [exact Hcall|]. split; [reflexivity|exact Hrest].
  - destruct (String.eqb exportType "selective"); cbn [bind_task];
      match goal with
      | |- context [sendExport ?e w] =>
          destruct (sendExport_replies e w Hs) as (w1 & k & Hcall & Hrest)
      end;
      exists w1, k; eexists; (split; [exact Hcall|]);
      (split; [reflexivity|exact Hrest]).
Qed.

Lemma executeExport_completes_witness :
  let w := world_of (resume (loadScene "s3" (fresh Sample.page_exporting_object))
                       (Sample.loaded Sample.scene3)) in
  currentScene w = Some Sample.scene3
  /\ (String.eqb "individual" "individual" = true ->
      JS.truthy_opt (get_value (doc w) "individual-object-select") = true)
  /\ exists w1 k e,
       executeExport "individual" w
       = Await w1 (mkRequest POST "/api/scene/s3/export" (ExportBody e)) k
       /\ export_type e = "individual"%string
       /\ present (doc w1) "scene-modal" = false.
Proof.
  cbv zeta. split; [reflexivity|]. split; [reflexivity|].
  destruct (executeExport_completes "individual"
              (world_of (resume (loadScene "s3" (fresh Sample.page_exporting_object))
                           (Sample.loaded Sample.scene3)))
              (s := Sample.scene3) eq_refl (fun _ => eq_refl))
    as (w1 & k & e & Hcall & Htype & _ & Hmodal & _).
  exists w1, k, e. repeat split; assumption.
Defined.

(** X5. An individual export with no object chosen (the object select is
    missing from the page, or its value is empty) is refused before
    anything else happens, in every session state: one error "Please
    select an object to export", no request, and the page is left as it
    was, so the export dialog stays open. *)
Theorem executeExport_individual_needs_object (w : World) :
  JS.truthy_opt (get_value (doc w) "individual-object-select") = false ->
  exists w',
    executeExport "individual" w = Done w' (Returned tt)
    /\ advances [] [("Please select an object to export"%string, Error)] [] w w'
    /\ doc w' = doc w
    /\ dialogs_open (trace w') = dialogs_open (trace w).
Proof.
  intros Hnone. unfold executeExport, bind, read. cbn [bind_task].
  change (String.eqb "individual" "individual") with true. cbn iota.
  cbn [bind_task]. rewrite Hnone. cbn [negb].
  eexists. split; [reflexivity|]. split; [advances_by|]. split; [reflexivity|].
  unfold showError, showNotification, emit, dialogs_open. cbn [trace].
  rewrite fold_left_app. reflexivity.
Qed.

Lemma executeExport_individual_needs_object_witness :
  let w := world_of (resume (loadScene "s3" (fresh Sample.page))
                       (Sample.loaded Sample.scene3)) in
  JS.truthy_opt (get_value (doc w) "individual-object-select") = false
  /\ exists w',
       executeExport "individual" w = Done w' (Returned tt)
       /\ advances [] [("Please select an object to export"%string, Error)] [] w w'
       /\ doc w' = doc w
       /\ dialogs_open (trace w') = dialogs_open (trace w).
Proof.
  cbv zeta. split; [reflexivity|].
  apply (executeExport_individual_needs_object
           (world_of (resume (loadScene "s3" (fresh Sample.page))
                        (Sample.loaded Sample.scene3)))).
  reflexivity.
Defined.

(** X6. The body of the export request, with a scene loaded.  The export
    type is sent as given, whatever string it is; [object_id] is sent
    only for "individual" and is the value of the object select, which
    is not checked against the scene; [object_ids] and [combined_file]
    are sent only for "selective", the latter true unless the check box
    is there and unchecked; every other type is sent like "complete",
    with none of the three.  The format is the chosen one, or "obj" when
    none is; the file name is sent as typed, and left out when empty. *)
Theorem executeExport_request_body (exportType : string) (w : World) (s : Scene) :
  currentScene w = Some s ->
  (String.eqb exportType "individual" = true ->
   JS.truthy_opt (get_value (doc w) "individual-object-select") = true) ->
  let individual := String.eqb exportType "individual" in
  let selective := negb individual && String.eqb exportType "selective" in
  let typed := JS.or_else (get_value (doc w) "export-filename") EmptyString in
  fetches (world_of (executeExport exportType w))
  = fetches w
    ++ [ mkRequest POST ("/api/scene/" ++ scene_id s ++ "/export")%string
           (ExportBody
              (mkExportData exportType
                 (JS.or_else (get_value (doc w) "export-format") "obj")
                 (if JS.truthy typed then Some typed else None)
                 (if individual
                  then get_value (doc w) "individual-object-select" else None)
                 (if selective then Some (selectedObjects w) else None)
                 (if selective
                  then Some (match get_checked (doc w) "combined-file" with
                             | Some b => b
                             | None => true
                             end)
                  else None))) ].
Proof.
  intros Hs Hobj. cbv zeta. unfold executeExport, bind, read. cbn [bind_task].
  destruct (String.eqb exportType "individual"); cbn [negb andb].
  - cbn [bind_task]. rewrite (Hobj eq_refl). cbn [negb].
    match goal with
    | |- context [sendExport ?e w] =>
        destruct (sendExport_replies e w Hs) as (w1 & k & Hcall & Hadv & _)
    end.
    rewrite Hcall. cbn [world_of]. exact (adv_fetches Hadv).
  - destruct (String.eqb exportType "selective"); cbn [bind_task];
      match goal with
      | |- context [sendExport ?e w] =>
          destruct (sendExport_replies e w Hs) as (w1 & k & Hcall & Hadv & _)
      end;
      rewrite Hcall; cbn [world_of]; exact (adv_fetches Hadv).
Qed.

Lemma executeExport_request_body_witness :
  let w := world_of (resume (loadScene "s3" (fresh Sample.page_exporting_object))
                       (Sample.loaded Sample.scene3)) in
  currentScene w = Some Sample.scene3
  /\ (String.eqb "bogus" "individual" = true ->
      JS.truthy_opt (get_value (doc w) "individual-object-select") = true)
  /\ fetches (world_of (executeExport "bogus" w))
     = fetches w
       ++ [ mkRequest POST "/api/scene/s3/export"
              (ExportBody (mkExportData "bogus" "gltf" (Some "my part"%string)
                             None None None)) ].
Proof.
  cbv zeta. split; [reflexivity|]. split; [discriminate|].
  apply (executeExport_request_body "bogus"
           (world_of (resume (loadScene "s3" (fresh Sample.page_exporting_object))
                        (Sample.loaded Sample.scene3)))
           (s := Sample.scene3) eq_refl).
  discriminate.
Defined.

(** ** Preview *)

Lemma previews_showNotification msg sev w :
  previews (showNotification msg sev w) = previews w.
Proof.
  unfold showNotification. rewrite previews_emit. apply app_nil_r.
Qed.

(** X7. With a scene loaded, [generateScenePreview] posts the preview
    request for that scene and, whatever the reply, returns without
    throwing and leaves the scene and the selection alone.  A reply with
    [success: true] writes one image into the preview container, when the
    page has one, and announces the success; the image source is the
    [preview_url] of the reply as the template literal prints it, the text
    "undefined" when the reply carries no such member and "null" when the
    member is [null]; every other reply writes no image and shows one
    error.  When the generate button
    was on the page at the call, it is disabled and relabelled while the
    request is in flight, and the last thing the method does, on every
    path, is to give it its label back and enable it. *)
Theorem generateScenePreview_completes (w : World) (s : Scene) :
  currentScene w = Some s ->
  exists w1 k,
    generateScenePreview w
    = Await w1 (mkRequest POST ("/api/scenes/" ++ scene_id s ++ "/preview")%string
                  NoBody) k
    /\ advances [mkRequest POST ("/api/scenes/" ++ scene_id s ++ "/preview")%string
                   NoBody] [] [] w w1
    /\ (present (doc w) "generate-preview-btn" = true ->
        trace w1
        = trace w
          ++ [ SetText "generate-preview-btn" "Generating...";
               SetDisabled "generate-preview-btn" true;
               Fetch (mkRequest POST ("/api/scenes/" ++ scene_id s ++ "/preview")%string
                        NoBody) ])
    /\ forall resp w',
         exists w'',
           k resp w' = Done w'' (Returned tt)
           /\ (if accepted resp
               then advances []
                      [("Scene preview generated successfully!"%string, Success)] []
                      w' w''
                    /\ previews w''
                       = previews w'
                         ++ (if present (doc w') "scene-preview-container"
                             then [JS.interpolate (reply_preview_url resp)]
                             else [])
               else advances []
                      [(error_text "Failed to generate scene preview" resp, Error)] []
                      w' w''
                    /\ previews w'' = previews w')
           /\ (present (doc w) "generate-preview-btn" = true ->
               exists before,
                 trace w''
                 = before
                   ++ [ SetText "generate-preview-btn"
                          (textContent (doc w) "generate-preview-btn");
                        SetDisabled "generate-preview-btn" false ]).
Proof.
  intros Hs. unfold generateScenePreview, bind, read. cbn [bind_task].
  rewrite Hs. run.
  destruct (present (doc w) "generate-preview-btn");
    cbn [currentScene emit]; rewrite Hs; step;
    (do 2 eexists; split; [reflexivity|]);
    (split; [advances_by|]);
    (split; [intros Hbtn;
             first [discriminate Hbtn
                   |cbn [trace emit]; rewrite <- ?app_assoc; reflexivity]|]);
    intros [|ok d] w'; step; cbn [accepted reply_preview_url error_text];
    try (destruct (success d); step);
    (eexists; split; [reflexivity|]);
    (split;
     [|intros Hbtn;
       first [discriminate Hbtn
             |eexists; cbn [trace emit]; rewrite <- app_assoc; reflexivity]]);
    (split;
     [unfold displayScenePreview;
      try destruct (present (doc w') "scene-preview-container"); cbn [negb];
      advances_by
     |unfold showError, showSuccess, displayScenePreview;
      try destruct (present (doc w') "scene-preview-container"); cbn [negb];
      rewrite ?previews_emit, ?previews_showNotification, ?previews_set_doc;
      cbn [app];
      rewrite ?previews_emit, ?previews_showNotification, ?previews_set_doc;
      cbn [app];
      rewrite ?app_nil_r; reflexivity]).
Qed.

Lemma generateScenePreview_completes_witness :
  let w := world_of (resume (loadScene "s3" (fresh Sample.page))
                       (Sample.loaded Sample.scene3)) in
  currentScene w = Some Sample.scene3
  /\ exists w1 k,
       generateScenePreview w
       = Await w1 (mkRequest POST "/api/scenes/s3/preview" NoBody) k
       /\ (exists w'',
              k (Sample.refused "Renderer busy") w1 = Done w'' (Returned tt)
              /\ advances [] [("Renderer busy"%string, Error)] [] w1 w'')
       /\ exists w'',
            k (Json true (mkData true None PreviewNull)) w = Done w'' (Returned tt)
            /\ previews w'' = ["null"%string].
Proof.
  cbv zeta. split; [reflexivity|].
  destruct (generateScenePreview_completes
              (world_of (resume (loadScene "s3" (fresh Sample.page))
                           (Sample.loaded Sample.scene3)))
              (s := Sample.scene3) eq_refl)
    as (w1 & k & Hcall & _ & _ & Hk).
  exists w1, k. split; [exact Hcall|]. split.
  - destruct (Hk (Sample.refused "Renderer busy") w1) as (w'' & Hrun & [Hadv _] & _).
    exists w''. split; assumption.
  - destruct (Hk (Json true (mkData true None PreviewNull))
                (world_of (resume (loadScene "s3" (fresh Sample.page))
                             (Sample.loaded Sample.scene3))))
      as (w'' & Hrun & [_ Hprev] & _).
    exists w''. split; [exact Hrun|exact Hprev].
Defined.

(** ** Creating a scene, end to end *)

(** X8. What [createScene] sends and shows after the reply to its POST.
    A reply with [success: true] shows the success message and asks for
    the scenes list again, once and without waiting for it, even when the
    reply carries no scene; in that case the success message is followed
    by the error "Failed to create scene".  Any other reply sends nothing
    more and shows one error, the server's text when the reply has one.
    The scene and the selection are never touched. *)
Theorem createScene_after_reply
        (nm : string) (desc : option string) (w w' : World) (resp : FetchResult) :
  exists w'' r,
    resume_in (createScene nm desc w) resp w' = Done w'' (Returned r)
    /\ advances
         (if accepted resp then [mkRequest GET "/api/scenes" NoBody] else [])
         (if accepted resp
          then (("Scene " ++ JS.dquote ++ nm ++ JS.dquote
                   ++ " created successfully!")%string, Success)
               :: match reply_scene resp with
                  | Some _ => []
                  | None => [("Failed to create scene"%string, Error)]
                  end
          else [(error_text "Failed to create scene" resp, Error)])
         [] w' w''
    /\ detached w''
       = detached w' ++ (if accepted resp then [ScenesListReply] else []).
Proof.
  unfold createScene. run. cbn [resume_in].
  destruct resp as [|ok d]; step; cbn [accepted reply_scene error_text].
  - do 2 eexists. split; [reflexivity|]. split; [advances_by|].
    cbn. rewrite app_nil_r. reflexivity.
  - destruct (success d); step.
    + unfold loadScenesList_detached, loadScenesList. run.
      destruct (data_scene d) as [sc|]; step;
        (do 2 eexists; split; [reflexivity|]); (split; [advances_by|reflexivity]).
    + do 2 eexists. split; [reflexivity|]. split; [advances_by|].
      cbn. rewrite app_nil_r. reflexivity.
Qed.




(** ** Loading a generated scene *)

(** X10. [loadGeneratedScene] does nothing at all on a page without the
    scenes drop-down: no request, the scene is not loaded.  On a page
    with it, it first asks for the scenes list and waits for the reply;
    whatever that reply is, a failure included, it then selects the id in
    the drop-down and requests the scene, and a success reply to that
    request installs the scene and empties the selection. *)
Theorem loadGeneratedScene_refreshes_then_loads (sceneId : string) (w : World) :
  JS.truthy sceneId = true ->
  (present (doc w) "scene-select" = false ->
   loadGeneratedScene sceneId w = Done w (Returned tt))
  /\ (present (doc w) "scene-select" = true ->
      exists k1,
        loadGeneratedScene sceneId w
        = Await (emit (Fetch (mkRequest GET "/api/scenes" NoBody)) w)
            (mkRequest GET "/api/scenes" NoBody) k1
        /\ forall resp1 w1,
             exists w2 k2 n,
               k1 resp1 w1
               = Await w2 (mkRequest GET ("/api/scenes/" ++ sceneId)%string NoBody) k2
               /\ advances [mkRequest GET ("/api/scenes/" ++ sceneId)%string NoBody]
                    n [] w1 w2
               /\ forall ok d w3,
                    success d = true ->
                    exists w4,
                      k2 (Json ok d) w3 = Done w4 (Returned tt)
                      /\ currentScene w4 = data_scene d
                      /\ selectedObjects w4 = []).
Proof.
  intros Hid. unfold loadGeneratedScene, bind, read. cbn [bind_task]. split.
  - intros ->. reflexivity.
  - intros ->. unfold loadScenesList. run. eexists. split; [reflexivity|].
    intros resp1 w1.
    assert (Hload : forall wx n,
               advances [] n [] w1 wx ->
               exists w2 k2 n',
                 loadScene sceneId (emit (SetValue "scene-select" sceneId) wx)
                 = Await w2 (mkRequest GET ("/api/scenes/" ++ sceneId)%string NoBody) k2
                 /\ advances [mkRequest GET ("/api/scenes/" ++ sceneId)%string NoBody]
                      n' [] w1 w2
                 /\ forall ok d w3,
                      success d = true ->
                      exists w4,
                        k2 (Json ok d) w3 = Done w4 (Returned tt)
                        /\ currentScene w4 = data_scene d
                        /\ selectedObjects w4 = []).
    { intros wx n Hwx.
      destruct (loadScene_spec sceneId (emit (SetValue "scene-select" sceneId) wx) Hid)
        as (k2 & Hcall & Hk2 & _).
      exists (emit (Fetch (mkRequest GET ("/api/scenes/" ++ sceneId)%string NoBody))
                (emit (SetValue "scene-select" sceneId) wx)), k2, n.
      split; [exact Hcall|]. split.
      - eapply advances_as;
          [eapply advances_trans;
           [exact Hwx
           |eapply advances_trans; [apply emit_advances|apply emit_advances]]
          |cbn; rewrite ?app_nil_r; reflexivity ..].
      - intros ok d w3 Hok. rewrite (Hk2 ok d w3 Hok). eexists.
        split; [reflexivity|]. cbn [currentScene selectedObjects set_selectedObjects].
        rewrite (same_scene (updateSceneDisplay_same _ _)). split; reflexivity. }
    destruct resp1 as [|ok d]; step.
    + eapply Hload. advances_by.
    + destruct (success d); step.
      * unfold updateScenesDropdown. run.
        destruct (present (doc w1) "scene-select"); cbn [negb]; step.
        -- destruct (data_scenes d) as [l|]; step; eapply Hload; advances_by.
        -- eapply Hload. advances_by.
      * eapply Hload. advances_by.
Qed.

Lemma loadGeneratedScene_refreshes_then_loads_witness :
  JS.truthy "s3" = true
  /\ present (doc (fresh Sample.page)) "scene-select" = true
  /\ exists k1,
       loadGeneratedScene "s3" (fresh Sample.page)
       = Await (emit (Fetch (mkRequest GET "/api/scenes" NoBody)) (fresh Sample.page))
           (mkRequest GET "/api/scenes" NoBody) k1
       /\ exists w2 k2,
            k1 Unreachable (fresh Sample.page)
            = Await w2 (mkRequest GET "/api/scenes/s3" NoBody) k2.
Proof.
  split; [reflexivity|]. split; [reflexivity|].
  destruct (proj2 (loadGeneratedScene_refreshes_then_loads "s3" (fresh Sample.page)
                     eq_refl) eq_refl)
    as (k1 & Hcall & Hk1).
  exists k1. split; [exact Hcall|].
  destruct (Hk1 Unreachable (fresh Sample.page)) as (w2 & k2 & n & Hrun & _).
  exists w2, k2. exact Hrun.
Defined.

(** ** Toggling one object *)

Lemma set_has_set_add i s : JS.set_has i (JS.set_add i s) = true.
Proof. apply set_has_In, In_set_add. left. reflexivity. Qed.

Lemma set_has_set_delete i s : JS.set_has i (JS.set_delete i s) = false.
Proof.
  destruct (JS.set_has i (JS.set_delete i s)) eqn:H; [|reflexivity].
  apply set_has_In, In_set_delete in H. destruct H as [H _]. contradiction.
Qed.

Lemma set_delete_absent i s : ~ In i s -> JS.set_delete i s = s.
Proof.
  unfold JS.set_delete. induction s as [|x s IH]; intros Hnot; [reflexivity|].
  cbn [filter]. destruct (String.eqb_spec i x) as [->|Hne]; cbn [negb].
  - exfalso. apply Hnot. left. reflexivity.
  - rewrite IH; [reflexivity|]. intros Hin. apply Hnot. right. exact Hin.
Qed.

Lemma set_delete_app i s t :
  JS.set_delete i (s ++ t) = JS.set_delete i s ++ JS.set_delete i t.
Proof. unfold JS.set_delete. apply filter_app. Qed.

Lemma set_delete_self i : JS.set_delete i [i] = [].
Proof. unfold JS.set_delete. cbn [filter]. rewrite String.eqb_refl. reflexivity. Qed.

(** X11. Toggling an object twice with the same flag selects, or
    deselects, it once: the second call leaves the selection as the first
    one made it. *)
Theorem toggleObjectSelection_idempotent (i : string) (b : bool) (w : World) :
  selectedObjects (toggleObjectSelection i b (toggleObjectSelection i b w))
  = selectedObjects (toggleObjectSelection i b w).
Proof.
  rewrite !toggleObjectSelection_selection. destruct b.
  - unfold JS.set_add at 1. rewrite set_has_set_add. reflexivity.
  - apply set_delete_absent. intros Hin. apply In_set_delete in Hin.
    destruct Hin as [H _]. contradiction.
Qed.

(** X12. Selecting an object that was not selected and deselecting it
    again gives the selection back exactly, order included. *)
Theorem toggleObjectSelection_select_deselect (i : string) (w : World) :
  ~ In i (selectedObjects w) ->
  selectedObjects (toggleObjectSelection i false (toggleObjectSelection i true w))
  = selectedObjects w.
Proof.
  intros Hnot. rewrite !toggleObjectSelection_selection.
  unfold JS.set_add. destruct (JS.set_has i (selectedObjects w)) eqn:Hhas.
  - apply set_has_In in Hhas. contradiction.
  - rewrite set_delete_app, set_delete_self, app_nil_r.
    apply set_delete_absent. exact Hnot.
Qed.

Lemma toggleObjectSelection_select_deselect_witness :
  let w := toggleObjectSelection "o1" true (fresh Sample.page) in
  ~ In "o2"%string (selectedObjects w)
  /\ selectedObjects (toggleObjectSelection "o2" false
                        (toggleObjectSelection "o2" true w))
     = selectedObjects w.
Proof.
  cbv zeta.
  assert (Hnot : ~ In "o2"%string
                   (selectedObjects (toggleObjectSelection "o1" true
                                       (fresh Sample.page)))).
  { cbn. intros [H|[]]. discriminate H. }
  split; [exact Hnot|].
  apply (toggleObjectSelection_select_deselect "o2"
           (toggleObjectSelection "o1" true (fresh Sample.page)) Hnot).
Defined.

(** X13. Deselecting an object and selecting it again moves it to the
    end of the selection, which is the order a selective export sends:
    the other objects keep their order and the object comes last. *)
Theorem toggleObjectSelection_reselect_moves_last (i : string) (w : World) :
  selectedObjects (toggleObjectSelection i true (toggleObjectSelection i false w))
  = JS.set_delete i (selectedObjects w) ++ [i].
Proof.
  rewrite !toggleObjectSelection_selection.
  unfold JS.set_add. rewrite set_has_set_delete. reflexivity.
Qed.

(** ** The action buttons *)

Lemma disabled_state_from elt u : forall st,
  fold_left (fun st e => match e with
                         | SetDisabled x b => if String.eqb x elt then Some b else st
                         | _ => st
                         end) u st
  = match disabled_state elt u with
    | Some b => Some b
    | None => st
    end.
Proof.
  unfold disabled_state. induction u as [|e u IH]; intros st; [reflexivity|].
  cbn [fold_left]. rewrite IH. symmetry. rewrite IH.
  destruct (fold_left _ u None); [reflexivity|].
  destruct e; try reflexivity. destruct (String.eqb elt0 elt); reflexivity.
Qed.

Lemma disabled_state_app elt t u :
  disabled_state elt (t ++ u)
  = match disabled_state elt u with
    | Some b => Some b
    | None => disabled_state elt t
    end.
Proof.
  unfold disabled_state at 1. rewrite fold_left_app. apply disabled_state_from.
Qed.

Lemma disabled_state_buttons elt b l :
  disabled_state elt (map (fun x => SetDisabled x b) l)
  = if existsb (String.eqb elt) l then Some b else None.
Proof.
  induction l as [|x l IH]; [reflexivity|].
  change (map (fun x => SetDisabled x b) (x :: l))
    with ([SetDisabled x b] ++ map (fun x => SetDisabled x b) l).
  rewrite disabled_state_app, IH. cbn [existsb].
  destruct (existsb (String.eqb elt) l); [rewrite orb_true_r; reflexivity|].
  rewrite orb_false_r. unfold disabled_state. cbn [fold_left].
  rewrite (String.eqb_sym x elt). reflexivity.
Qed.

Lemma set_disabled_doc elt b w : doc (set_disabled elt b w) = doc w.
Proof. unfold set_disabled. destruct (present (doc w) elt); reflexivity. Qed.

Lemma buttons_trace b l : forall w,
  trace (fold_left (fun w' elt => set_disabled elt b w') l w)
  = trace w ++ map (fun elt => SetDisabled elt b) (filter (present (doc w)) l)
  /\ doc (fold_left (fun w' elt => set_disabled elt b w') l w) = doc w.
Proof.
  induction l as [|x l IH]; intros w; cbn [fold_left filter].
  - rewrite app_nil_r. split; reflexivity.
  - destruct (IH (set_disabled x b w)) as [Ht Hd]. rewrite Ht, Hd.
    rewrite set_disabled_doc. split; [|reflexivity].
    unfold set_disabled. destruct (present (doc w) x); cbn [map trace emit].
    + rewrite <- app_assoc. reflexivity.
    + reflexivity.
Qed.

(** What the last redraw of the scene leaves on an action button that is
    on the page. *)
Lemma updateSceneDisplay_button scene w elt :
  present (doc w) "scene-display" = true ->
  In elt export_buttons ->
  present (doc w) elt = true ->
  disabled_state elt (trace (updateSceneDisplay scene w))
  = Some (negb match scene with
               | Some s => (0 <? object_count s)%nat
               | None => false
               end).
Proof.
  intros Hdisplay Hin Helt. unfold updateSceneDisplay. rewrite Hdisplay. cbn [negb].
  assert (Hbtn : disabled_state elt (trace (updateExportButtonStates scene w))
                 = Some (negb match scene with
                              | Some s => (0 <? object_count s)%nat
                              | None => false
                              end)).
  { unfold updateExportButtonStates.
    rewrite (proj1 (buttons_trace _ export_buttons w)), disabled_state_app,
      disabled_state_buttons.
    assert (Hex : existsb (String.eqb elt) (filter (present (doc w)) export_buttons)
                  = true).
    { apply existsb_exists. exists elt. split; [|apply String.eqb_refl].
      apply filter_In. split; assumption. }
    rewrite Hex. reflexivity. }
  destruct scene; cbn [trace emit set_doc]; rewrite disabled_state_app; cbn;
    exact Hbtn.
Qed.

(** X14. A successful load of a scene that has objects enables the
    selective export button, when the page has it, and leaves the
    selection empty: right after the load the button is enabled with
    nothing selected, and what refuses the export is the check in
    [showExportModal], which shows "No objects selected for selective
    export" and opens no dialog. *)
Theorem load_enables_selective_export_with_empty_selection
        (sceneId : string) (w w' : World) (ok : bool) (d : Data) (sc : Scene) :
  JS.truthy sceneId = true ->
  success d = true ->
  data_scene d = Some sc ->
  (0 <? object_count sc)%nat = true ->
  present (doc w') "scene-display" = true ->
  present (doc w') "export-selective-btn" = true ->
  exists w'',
    resume_in (loadScene sceneId w) (Json ok d) w' = Done w'' (Returned tt)
    /\ currentScene w'' = Some sc
    /\ selectedObjects w'' = []
    /\ disabled_state "export-selective-btn" (trace w'') = Some false
    /\ exists w3,
         showExportModal "selective" w'' = Done w3 (Returned tt)
         /\ advances [] [("No objects selected for selective export"%string, Error)] []
              w'' w3.
Proof.
  intros Hid Hok Hsc Hcount Hdisplay Hbtn.
  destruct (loadScene_spec sceneId w Hid) as (k & Hcall & Hk & _).
  rewrite Hcall. cbn [resume_in]. rewrite (Hk ok d w' Hok), Hsc.
  eexists. split; [reflexivity|].
  cbn [currentScene selectedObjects set_selectedObjects trace].
  rewrite (same_scene (updateSceneDisplay_same _ _)).
  split; [reflexivity|]. split; [reflexivity|]. split.
  - rewrite (updateSceneDisplay_button (Some sc) (set_currentScene (Some sc) w')
               (elt := "export-selective-btn") Hdisplay);
      [rewrite Hcount; reflexivity| |exact Hbtn].
    cbn. auto.
  - unfold showExportModal, bind, read. cbn [bind_task currentScene set_selectedObjects].
    rewrite (same_scene (updateSceneDisplay_same _ _)). cbn [currentScene set_currentScene].
    change (String.eqb "selective" "individual") with false.
    change (String.eqb "selective" "selective") with true.
    cbn iota. cbn [bind_task selectedObjects set_selectedObjects List.length Nat.eqb].
    eexists. split; [reflexivity|]. advances_by.
Qed.

Lemma load_enables_selective_export_with_empty_selection_witness :
  JS.truthy "s3" = true
  /\ success (mkData true None (SceneData Sample.scene3)) = true
  /\ (0 <? object_count Sample.scene3)%nat = true
  /\ present (doc (fresh Sample.page)) "scene-display" = true
  /\ present (doc (fresh Sample.page)) "export-selective-btn" = true
  /\ exists w'',
       resume_in (loadScene "s3" (fresh Sample.page)) (Sample.loaded Sample.scene3)
         (fresh Sample.page) = Done w'' (Returned tt)
       /\ selectedObjects w'' = []
       /\ disabled_state "export-selective-btn" (trace w'') = Some false.
Proof.
  do 5 (split; [reflexivity|]).
  destruct (load_enables_selective_export_with_empty_selection
              "s3" (fresh Sample.page) (fresh Sample.page) true
              (mkData true None (SceneData Sample.scene3)) (sc := Sample.scene3)
              eq_refl eq_refl eq_refl eq_refl eq_refl eq_refl)
    as (w'' & Hrun & _ & Hsel & Hbtn & _).
  exists w''. repeat split; assumption.
Defined.

(** X15. A scene whose [object_count] is zero is kept from export,
    validation and preview by its buttons only: loading it disables every
    action button that is on the page, but [showExportModal] still opens
    the complete export dialog for it, and [executeExport] still sends
    the export request.  Neither method looks at the number of objects. *)
Theorem empty_scene_is_blocked_by_buttons_only
        (sceneId : string) (w w' : World) (ok : bool) (d : Data) (sc : Scene) :
  JS.truthy sceneId = true ->
  success d = true ->
  data_scene d = Some sc ->
  object_count sc = 0 ->
  present (doc w') "scene-display" = true ->
  exists w'',
    resume_in (loadScene sceneId w) (Json ok d) w' = Done w'' (Returned tt)
    /\ currentScene w'' = Some sc
    /\ (forall elt,
           In elt export_buttons ->
           present (doc w') elt = true ->
           disabled_state elt (trace w'') = Some true)
    /\ (exists w3,
           showExportModal "complete" w'' = Done w3 (Returned tt)
           /\ advances [] [] [("Export Scene"%string, CompleteExportForm 0)] w'' w3)
    /\ exists w3 k e,
         executeExport "complete" w''
         = Await w3 (mkRequest POST ("/api/scene/" ++ scene_id sc ++ "/export")%string
                       (ExportBody e)) k.
Proof.
  intros Hid Hok Hsc Hcount Hdisplay.
  destruct (loadScene_spec sceneId w Hid) as (k & Hcall & Hk & _).
  rewrite Hcall. cbn [resume_in]. rewrite (Hk ok d w' Hok), Hsc.
  eexists. split; [reflexivity|].
  assert (Hscene : currentScene
                     (set_selectedObjects []
                        (updateSceneDisplay (Some sc) (set_currentScene (Some sc) w')))
                   = Some sc).
  { cbn [currentScene set_selectedObjects].
    rewrite (same_scene (updateSceneDisplay_same _ _)). reflexivity. }
  split; [exact Hscene|]. split; [|split].
  - intros elt Hin Helt. cbn [trace set_selectedObjects].
    rewrite (updateSceneDisplay_button (Some sc) (set_currentScene (Some sc) w')
               (elt := elt) Hdisplay Hin Helt).
    rewrite Hcount. reflexivity.
  - unfold showExportModal, bind, read. cbn [bind_task]. rewrite Hscene.
    change (String.eqb "complete" "individual") with false.
    change (String.eqb "complete" "selective") with false.
    cbn iota. unfold getCompleteExportModalContent. run. rewrite Hscene. step.
    rewrite Hcount. eexists. split; [reflexivity|]. advances_by.
  - unfold executeExport, bind, read. cbn [bind_task].
    change (String.eqb "complete" "individual") with false.
    change (String.eqb "complete" "selective") with false.
    cbn iota.
    match goal with
    | |- context [sendExport ?e ?w0] =>
        destruct (sendExport_replies e w0 Hscene) as (w3 & k3 & Hsend & _)
    end.
    exists w3, k3. eexists. exact Hsend.
Qed.

Lemma empty_scene_is_blocked_by_buttons_only_witness :
  JS.truthy "e0" = true
  /\ success (mkData true None (SceneData Sample.empty_scene)) = true
  /\ object_count Sample.empty_scene = 0
  /\ present (doc (fresh Sample.page)) "scene-display" = true
  /\ exists w'',
       resume_in (loadScene "e0" (fresh Sample.page)) (Sample.loaded Sample.empty_scene)
         (fresh Sample.page) = Done w'' (Returned tt)
       /\ disabled_state "export-complete-btn" (trace w'') = Some true
       /\ exists w3 k e,
            executeExport "complete" w''
            = Await w3 (mkRequest POST "/api/scene/e0/export" (ExportBody e)) k.
Proof.
  do 4 (split; [reflexivity|]).
  destruct (empty_scene_is_blocked_by_buttons_only
              "e0" (fresh Sample.page) (fresh Sample.page) true
              (mkData true None (SceneData Sample.empty_scene))
              (sc := Sample.empty_scene) eq_refl eq_refl eq_refl eq_refl eq_refl)
    as (w'' & Hrun & _ & Hbtn & _ & Hsend).
  exists w''. split; [exact Hrun|]. split; [|exact Hsend].
  apply Hbtn; [cbn; auto|reflexivity].
Defined.

(** ** Per-object actions *)

(** X16. With a scene loaded, [previewObject] never sends anything.  It
    opens the preview dialog for the first object of the scene that has
    the given id, and shows "Object not found", without a dialog, when no
    object of the scene has it. *)
Theorem previewObject_shows_the_object (objectId : string) (w : World) (s : Scene) :
  currentScene w = Some s ->
  exists w',
    previewObject objectId w = Done w' (Returned tt)
    /\ match find_object objectId s with
       | Some o =>
           id o = objectId /\ In o (objects s)
           /\ advances [] [] [("Object Preview"%string, ObjectPreview o)] w w'
       | None =>
           (forall o, In o (objects s) -> id o <> objectId)
           /\ advances [] [("Object not found"%string, Error)] [] w w'
       end.
Proof.
  intros Hs. unfold previewObject, bind, read. cbn [bind_task]. rewrite Hs.
  destruct (find_object objectId s) as [o|] eqn:Hfind; unfold find_object in Hfind.
  - eexists. split; [reflexivity|].
    apply find_some in Hfind. destruct Hfind as [Hin Heq].
    apply String.eqb_eq in Heq.
    split; [exact Heq|]. split; [exact Hin|advances_by].
  - eexists. split; [reflexivity|]. split; [|advances_by].
    intros o Hin Heq. apply (find_none _ _ Hfind) in Hin.
    apply String.eqb_neq in Hin. contradiction.
Qed.

Lemma previewObject_shows_the_object_witness :
  let w := world_of (resume (loadScene "s3" (fresh Sample.page))
                       (Sample.loaded Sample.scene3)) in
  currentScene w = Some Sample.scene3
  /\ exists w',
       previewObject "o2" w = Done w' (Returned tt)
       /\ advances [] [] [("Object Preview"%string, ObjectPreview (Sample.object "o2"))]
            w w'.
Proof.
  cbv zeta. split; [reflexivity|].
  destruct (previewObject_shows_the_object "o2"
              (world_of (resume (loadScene "s3" (fresh Sample.page))
                           (Sample.loaded Sample.scene3)))
              (s := Sample.scene3) eq_refl)
    as (w' & Hrun & Hshown).
  exists w'. split; [exact Hrun|]. exact (proj2 (proj2 Hshown)).
Defined.

(** X17. With a scene loaded, [exportIndividualObject] never sends
    anything.  When the scene has an object with the given id it opens
    the individual export dialog, which lists every object of the scene;
    otherwise it shows "Object not found" and opens no dialog. *)
Theorem exportIndividualObject_opens_dialog (objectId : string) (w : World) (s : Scene) :
  currentScene w = Some s ->
  exists w',
    exportIndividualObject objectId w = Done w' (Returned tt)
    /\ match find_object objectId s with
       | Some _ =>
           advances [] [] [("Export Scene"%string, IndividualExportForm (objects s))]
             w w'
       | None => advances [] [("Object not found"%string, Error)] [] w w'
       end.
Proof.
  intros Hs. unfold exportIndividualObject, bind, read. cbn [bind_task]. rewrite Hs.
  destruct (find_object objectId s) as [o|].
  - unfold showExportModal, bind, read. cbn [bind_task]. rewrite Hs.
    change (String.eqb "individual" "individual") with true. cbn iota.
    unfold getIndividualExportModalContent. run. rewrite Hs. step.
    eexists. split; [reflexivity|]. advances_by.
  - eexists. split; [reflexivity|]. advances_by.
Qed.

Lemma exportIndividualObject_opens_dialog_witness :
  let w := world_of (resume (loadScene "s3" (fresh Sample.page))
                       (Sample.loaded Sample.scene3)) in
  currentScene w = Some Sample.scene3
  /\ exists w',
       exportIndividualObject "zz" w = Done w' (Returned tt)
       /\ advances [] [("Object not found"%string, Error)] [] w w'.
Proof.
  cbv zeta. split; [reflexivity|].
  apply (exportIndividualObject_opens_dialog "zz"
           (world_of (resume (loadScene "s3" (fresh Sample.page))
                        (Sample.loaded Sample.scene3)))
           (s := Sample.scene3) eq_refl).
Defined.

(** ** What the scene operations leave alone *)

Lemma advances_keeps f n m w w' :
  advances f n m w w' ->
  f = [] ->
  currentScene w' = currentScene w
  /\ selectedObjects w' = selectedObjects w
  /\ fetches w' = fetches w.
Proof.
  intros [a b c d e] ->. rewrite app_nil_r in c. repeat split; assumption.
Qed.

Lemma advances_sends f n m req w w' :
  advances f n m w w' ->
  f = [req] ->
  currentScene w' = currentScene w
  /\ selectedObjects w' = selectedObjects w
  /\ fetches w' = fetches w ++ [req].
Proof. intros [a b c d e] ->. repeat split; assumption. Qed.

Ltac keeps := eapply advances_keeps; [advance|reflexivity].

Lemma sendExport_keeps_session e w : keeps_session w (sendExport e w).
Proof.
  destruct (currentScene w) as [s|] eqn:Hs.
  - destruct (sendExport_replies e w Hs) as (w1 & k & Hcall & Hadv & _ & _ & Hk).
    rewrite Hcall. cbn [keeps_session].
    destruct (advances_sends Hadv eq_refl) as (a & b & c).
    repeat (split; [assumption|]).
    intros resp w'. destruct (Hk resp w') as (w'' & Hrun & _ & Hcase).
    exists w''. split; [exact Hrun|].
    destruct (if accepted_with_status resp then reply_export resp else None).
    + exact (advances_keeps (proj1 Hcase) eq_refl).
    + exact (advances_keeps Hcase eq_refl).
  - destruct (sendExport_unloaded e w Hs) as (w' & Hrun & [a b c d _]).
    rewrite Hrun. cbn [keeps_session]. repeat split; assumption.
Qed.

(** X18. Preview, validation, export and the per-object actions keep
    the session, loaded or not: each of them returns without throwing,
    at once or after the one request it sends, whatever the reply is and
    whatever has happened on the page in between; none of them ever
    changes the loaded scene or the selection, and none sends a second
    request. *)
Theorem scene_operations_keep_session (op : Operation) (w : World) :
  keeps_session w (invoke op w).
Proof.
  destruct op as [ | | t | t | i | i]; cbn [invoke].
  - (* generateScenePreview *)
    unfold generateScenePreview, bind, read. cbn [bind_task].
    destruct (currentScene w) as [s|] eqn:Hs.
    + run.
      destruct (present (doc w) "generate-preview-btn");
        cbn [currentScene emit]; rewrite Hs; step; cbn [keeps_session];
        (split; [reflexivity|]); (split; [reflexivity|]);
        (split; [eapply advances_sends; [advance|reflexivity]|]);
        intros [|ok d] w'; step; try (destruct (success d); step);
        (eexists; split; [reflexivity|]);
        unfold displayScenePreview;
        try destruct (present (doc w') "scene-preview-container"); cbn [negb];
        keeps.
    + cbn [keeps_session]. split; [reflexivity|]. keeps.
  - (* validateScene *)
    unfold validateScene, bind, read. cbn [bind_task].
    destruct (currentScene w) as [s|] eqn:Hs.
    + assert (H1 : currentScene (showLoading "Validating scene..." w) = Some s).
      { rewrite (same_scene (showLoading_same _ _)). exact Hs. }
      run. rewrite H1. step. cbn [keeps_session].
      split; [eapply advances_sends; [advance|reflexivity]|].
      split; [eapply advances_sends; [advance|reflexivity]|].
      split; [eapply advances_sends; [advance|reflexivity]|].
      intros [|ok d] w'; step; try (destruct (success d); step);
        unfold showValidationResults; run;
        try (destruct (data_validation d); step);
        (eexists; split; [reflexivity|]); keeps.
    + cbn [keeps_session]. split; [reflexivity|]. keeps.
  - (* showExportModal *)
    unfold showExportModal, bind, read. cbn [bind_task].
    destruct (currentScene w) as [s|] eqn:Hs.
    + unfold getIndividualExportModalContent, getSelectiveExportModalContent,
        getCompleteExportModalContent.
      destruct (String.eqb t "individual"); [|destruct (String.eqb t "selective")];
        run; try destruct (List.length (selectedObjects w) =? 0)%nat;
        run; rewrite ?Hs; step; cbn [keeps_session];
        (split; [reflexivity|]); keeps.
    + cbn [keeps_session]. split; [reflexivity|]. keeps.
  - (* executeExport *)
    unfold executeExport, bind, read. cbn [bind_task].
    destruct (String.eqb t "individual"); [|destruct (String.eqb t "selective")];
      cbn [bind_task]; try apply sendExport_keeps_session.
    destruct (negb (JS.truthy_opt (get_value (doc w) "individual-object-select")));
      [|apply sendExport_keeps_session].
    cbn [keeps_session]. split; [reflexivity|]. keeps.
  - (* previewObject *)
    unfold previewObject, bind, read. cbn [bind_task].
    destruct (currentScene w) as [s|]; [destruct (find_object i s)|];
      cbn [keeps_session]; (split; [reflexivity|]); keeps.
  - (* exportIndividualObject *)
    unfold exportIndividualObject, bind, read. cbn [bind_task].
    destruct (currentScene w) as [s|] eqn:Hs; [destruct (find_object i s)|].
    + unfold showExportModal, bind, read. cbn [bind_task]. rewrite Hs.
      change (String.eqb "individual" "individual") with true. cbn iota.
      unfold getIndividualExportModalContent. run. rewrite Hs. step.
      cbn [keeps_session]. split; [reflexivity|]. keeps.
    + cbn [keeps_session]. split; [reflexivity|]. keeps.
    + cbn [keeps_session]. split; [reflexivity|]. keeps.
Qed.

(** ** One dialog, one overlay *)

Lemma dialogs_open_emit e w :
  dialogs_open (trace (emit e w))
  = match e with
    | ShowModal _ _ => S (dialogs_open (trace w))
    | CloseModal => pred (dialogs_open (trace w))
    | _ => dialogs_open (trace w)
    end.
Proof.
  unfold dialogs_open, emit. cbn [trace]. rewrite fold_left_app.
  destruct e; reflexivity.
Qed.

Lemma overlays_open_emit e w :
  overlays_open (trace (emit e w))
  = match e with
    | ShowLoading _ => S (overlays_open (trace w))
    | HideLoading => pred (overlays_open (trace w))
    | _ => overlays_open (trace w)
    end.
Proof.
  unfold overlays_open, emit. cbn [trace]. rewrite fold_left_app.
  destruct e; reflexivity.
Qed.

(** X19. The page never holds two scene dialogs or two loading
    overlays.  On a page whose document agrees with what the script has
    inserted so far, [showModal] removes the dialog that is open before
    it inserts the new one, and [showLoading] does the same with the
    overlay, so exactly one is there afterwards; [closeModal] and
    [hideLoading] leave none, and do nothing when there is none. *)
Theorem dialog_and_overlay_stay_single
        (w : World) (title msg : string) (content : Html) :
  tracked w ->
  (tracked (showModal title content w)
   /\ dialogs_open (trace (showModal title content w)) = 1)
  /\ (tracked (closeModal w) /\ dialogs_open (trace (closeModal w)) = 0)
  /\ (tracked (showLoading msg w)
      /\ overlays_open (trace (showLoading msg w)) = 1)
  /\ (tracked (hideLoading w) /\ overlays_open (trace (hideLoading w)) = 0)
  /\ (present (doc w) "scene-modal" = false -> closeModal w = w)
  /\ (present (doc w) "loading-overlay" = false -> hideLoading w = w).
Proof.
  intros [Hd Ho]. unfold tracked, showModal, showLoading, closeModal, hideLoading.
  destruct (present (doc w) "scene-modal") eqn:Hm;
    destruct (present (doc w) "loading-overlay") eqn:Hl;
    cbn [doc set_doc set_present present trace emit String.eqb Ascii.eqb Bool.eqb];
    rewrite ?Hm, ?Hl;
    cbn [doc set_doc set_present present trace emit String.eqb Ascii.eqb Bool.eqb];
    change (trace w ++ [?e]) with (trace (emit e w));
    repeat match goal with
           | |- context [(trace (emit ?e1 w) ++ [?e2])] =>
               change (trace (emit e1 w) ++ [e2]) with (trace (emit e2 (emit e1 w)))
           end;
    rewrite ?dialogs_open_emit, ?overlays_open_emit, ?Hd, ?Ho;
    repeat split; try reflexivity; try discriminate.
Qed.

Lemma dialog_and_overlay_stay_single_witness :
  let w := showModal "Create New Scene" CreateSceneForm (fresh Sample.page) in
  tracked w
  /\ dialogs_open (trace (showModal "Export Scene" (CompleteExportForm 3) w)) = 1.
Proof.
  cbv zeta.
  assert (Ht : tracked (showModal "Create New Scene" CreateSceneForm
                          (fresh Sample.page))).
  { split; reflexivity. }
  split; [exact Ht|].
  exact (proj2 (proj1 (dialog_and_overlay_stay_single "Export Scene" "Loading..."
                         (CompleteExportForm 3) Ht))).
Defined.

(** ** What a load draws *)

Lemma updateSceneDisplay_draws scene w :
  if present (doc w) "scene-display"
  then exists before,
         trace (updateSceneDisplay scene w)
         = before ++ [SetInnerHTML "scene-display"
                        match scene with
                        | Some s => SceneInfo s
                        | None => NoSceneSelected
                        end]
  else updateSceneDisplay scene w = w.
Proof.
  unfold updateSceneDisplay. destruct (present (doc w) "scene-display"); cbn [negb].
  - destruct scene; eexists; reflexivity.
  - reflexivity.
Qed.

(** X20. What [loadScene] does with a reply that carries [success: true]
    and either no scene or a scene with every member that the display
    template reads (a [Scene]): the scene of the reply replaces the
    current one, the selection is emptied, nothing is sent and no
    notification is shown; a reply without a scene leaves the session
    unloaded, without a notification.  On a page with the scene display
    the last thing written is that display, showing the scene of the
    reply or the "no scene" placeholder; on a page without it nothing is
    drawn and no button is touched, yet the scene is installed all the
    same.  A scene that lacks a member the template reads is outside the
    replies this covers. *)
Theorem loadScene_success_redraws
        (sceneId : string) (w w' : World) (ok : bool) (d : Data) :
  JS.truthy sceneId = true ->
  success d = true ->
  exists w'',
    resume_in (loadScene sceneId w) (Json ok d) w' = Done w'' (Returned tt)
    /\ currentScene w'' = data_scene d
    /\ selectedObjects w'' = []
    /\ fetches w'' = fetches w'
    /\ notifications w'' = notifications w'
    /\ if present (doc w') "scene-display"
       then exists before,
              trace w''
              = before ++ [SetInnerHTML "scene-display"
                             match data_scene d with
                             | Some s => SceneInfo s
                             | None => NoSceneSelected
                             end]
       else trace w'' = trace w'.
Proof.
  intros Hid Hok.
  destruct (loadScene_spec sceneId w Hid) as (k & Hcall & Hk & _).
  rewrite Hcall. cbn [resume_in]. rewrite (Hk ok d w' Hok).
  eexists. split; [reflexivity|].
  cbn [currentScene selectedObjects set_selectedObjects].
  rewrite (same_scene (updateSceneDisplay_same _ _)).
  split; [reflexivity|]. split; [reflexivity|].
  change (fetches (set_selectedObjects [] ?x)) with (fetches x).
  change (notifications (set_selectedObjects [] ?x)) with (notifications x).
  rewrite (same_fetches (updateSceneDisplay_same _ _)),
    (same_notifications (updateSceneDisplay_same _ _)).
  split; [reflexivity|]. split; [reflexivity|].
  cbn [trace set_selectedObjects].
  pose proof (updateSceneDisplay_draws (data_scene d)
                (set_currentScene (data_scene d) w')) as Hdraw.
  cbn [doc set_currentScene] in Hdraw.
  destruct (present (doc w') "scene-display"); [exact Hdraw|].
  rewrite Hdraw. reflexivity.
Qed.

Lemma loadScene_success_redraws_witness :
  JS.truthy "s3" = true
  /\ success (mkData true None NoPayload) = true
  /\ exists w'',
       resume_in (loadScene "s3" (fresh Sample.page)) (Json true (mkData true None NoPayload))
         (toggleObjectSelection "o1" true (fresh Sample.page))
       = Done w'' (Returned tt)
       /\ currentScene w'' = None
       /\ selectedObjects w'' = []
       /\ notifications w'' = [].
Proof.
  split; [reflexivity|]. split; [reflexivity|].
  destruct (loadScene_success_redraws "s3" (fresh Sample.page)
              (toggleObjectSelection "o1" true (fresh Sample.page)) true
              (mkData true None NoPayload) eq_refl eq_refl)
    as (w'' & Hrun & Hscene & Hsel & _ & Hnote & _).
  exists w''. repeat split; assumption.
Defined.

(** X21. [loadScene] with an empty id unloads at once: it sends nothing,
    shows no notification and leaves [currentScene] null.  On a page with
    the scene display it disables every action button that is on the
    page and then draws the "no scene" placeholder; on a page without the
    display it writes nothing. *)
Theorem loadScene_empty_id_unloads (w : World) :
  exists w',
    loadScene EmptyString w = Done w' (Returned tt)
    /\ currentScene w' = None
    /\ fetches w' = fetches w
    /\ notifications w' = notifications w
    /\ if present (doc w) "scene-display"
       then (exists before,
                trace w' = before ++ [SetInnerHTML "scene-display" NoSceneSelected])
            /\ forall elt,
                 In elt export_buttons ->
                 present (doc w) elt = true ->
                 disabled_state elt (trace w') = Some true
       else trace w' = trace w.
Proof.
  rewrite loadScene_unload. eexists. split; [reflexivity|].
  rewrite (same_scene (updateSceneDisplay_same _ _)),
    (same_fetches (updateSceneDisplay_same _ _)),
    (same_notifications (updateSceneDisplay_same _ _)).
  do 3 (split; [reflexivity|]).
  pose proof (updateSceneDisplay_draws None (set_currentScene None w)) as Hdraw.
  cbn [doc set_currentScene] in Hdraw.
  destruct (present (doc w) "scene-display") eqn:Hdisplay.
  - split; [exact Hdraw|]. intros elt Hin Helt.
    apply (updateSceneDisplay_button None (set_currentScene None w) (elt := elt));
      assumption.
  - rewrite Hdraw. reflexivity.
Qed.

(** ** The selective export button under toggles *)

Lemma toggleObjectSelection_doc i b w : doc (toggleObjectSelection i b w) = doc w.
Proof.
  unfold toggleObjectSelection, set_disabled, set_text.
  destruct b; cbn [doc set_selectedObjects];
    repeat match goal with
           | |- context [if present ?d ?e then _ else _] =>
               destruct (present d e); cbn [doc emit set_selectedObjects]
           end;
    reflexivity.
Qed.

Lemma toggleObjectSelection_button i b w :
  present (doc w) "export-selective-btn" = true ->
  disabled_state "export-selective-btn" (trace (toggleObjectSelection i b w))
  = Some match selectedObjects (toggleObjectSelection i b w) with
         | [] => true
         | _ :: _ => false
         end.
Proof.
  intros Hbtn. unfold toggleObjectSelection.
  set (w1 := if b
             then set_selectedObjects (JS.set_add i (selectedObjects w)) w
             else set_selectedObjects (JS.set_delete i (selectedObjects w)) w).
  match goal with
  | |- context [set_text ?e ?s w1] => set (w2 := set_text e s w1)
  end.
  assert (Hdoc : doc w2 = doc w).
  { unfold w2, set_text, w1.
    destruct b; cbn [doc set_selectedObjects];
      destruct (present (doc w) "selection-info"); reflexivity. }
  assert (Hsel : selectedObjects w2 = selectedObjects w1).
  { apply (same_selection (set_text_same _ _ _)). }
  rewrite (same_selection (set_disabled_same _ _ _)), Hsel.
  unfold set_disabled. rewrite Hdoc, Hbtn. cbn [trace emit].
  rewrite disabled_state_app. unfold disabled_state at 1. cbn [fold_left].
  rewrite String.eqb_refl. destruct (selectedObjects w1); reflexivity.
Qed.

(** X22. After any non-empty sequence of toggles, on a page with the
    selective export button, the button is disabled exactly when the
    selection is empty. *)
Theorem toggles_gate_selective_export (calls : list (string * bool)) :
  forall w : World,
    calls <> [] ->
    present (doc w) "export-selective-btn" = true ->
    disabled_state "export-selective-btn" (trace (toggles calls w))
    = Some match selectedObjects (toggles calls w) with
           | [] => true
           | _ :: _ => false
           end.
Proof.
  induction calls as [|[i b] calls IH]; intros w Hne Hbtn; [contradiction|].
  rewrite toggles_cons. destruct calls as [|c calls].
  - apply toggleObjectSelection_button. exact Hbtn.
  - apply IH; [discriminate|]. rewrite toggleObjectSelection_doc. exact Hbtn.
Qed.

Lemma toggles_gate_selective_export_witness :
  let calls := [("o1", true); ("o2", true); ("o1", false); ("o2", false)]%string in
  calls <> []
  /\ present (doc (fresh Sample.page)) "export-selective-btn" = true
  /\ selectedObjects (toggles calls (fresh Sample.page)) = []
  /\ disabled_state "export-selective-btn" (trace (toggles calls (fresh Sample.page)))
     = Some true.
Proof.
  cbv zeta. split; [discriminate|]. split; [reflexivity|]. split; [reflexivity|].
  exact (@toggles_gate_selective_export
           [("o1", true); ("o2", true); ("o1", false); ("o2", false)]%string
           (fresh Sample.page) ltac:(discriminate) eq_refl).
Defined.

(** ** A preview reply that arrives after the scene has changed *)







(** ** Toggles that come from the check boxes of the scene *)

Lemma toggles_scene calls : forall w, currentScene (toggles calls w) = currentScene w.
Proof.
  induction calls as [|[j b] calls IH]; intros w; [reflexivity|].
  rewrite toggles_cons, IH. apply toggleObjectSelection_scene.
Qed.

(** X24. The check boxes that [updateSceneDisplay] draws carry the ids of
    the objects of the scene.  Toggles that name only such ids, starting
    from a selection within the scene, keep the selection within the
    scene and leave the scene loaded: every selected id then has its
    object in the scene. *)
Theorem toggles_from_scene_stay_in_scene
        (calls : list (string * bool)) (w : World) (s : Scene) :
  currentScene w = Some s ->
  (forall i, In i (selectedObjects w) -> In i (map id (objects s))) ->
  (forall c, In c calls -> In (fst c) (map id (objects s))) ->
  currentScene (toggles calls w) = Some s
  /\ forall i,
       In i (selectedObjects (toggles calls w)) ->
       exists o, find_object i s = Some o /\ id o = i.
Proof.
  intros Hs Hsel Hcalls. split; [rewrite toggles_scene; exact Hs|].
  intros i Hi.
  pose proof (toggles_within (map id (objects s)) calls w Hsel Hcalls i Hi) as Hin.
  apply in_map_iff in Hin. destruct Hin as (o & Hid & Ho).
  unfold find_object.
  destruct (find (fun o0 => String.eqb (id o0) i) (objects s)) as [o'|] eqn:Hfind.
  - exists o'. split; [reflexivity|].
    apply find_some in Hfind. apply String.eqb_eq. exact (proj2 Hfind).
  - exfalso. apply (find_none _ _ Hfind) in Ho.
    rewrite Hid, String.eqb_refl in Ho. discriminate Ho.
Qed.

Lemma toggles_from_scene_stay_in_scene_witness :
  let w := world_of (resume (loadScene "s3" (fresh Sample.page))
                       (Sample.loaded Sample.scene3)) in
  let calls := [("o3", true); ("o1", true); ("o3", false)]%string in
  currentScene w = Some Sample.scene3
  /\ currentScene (toggles calls w) = Some Sample.scene3
  /\ forall i,
       In i (selectedObjects (toggles calls w)) ->
       exists o, find_object i Sample.scene3 = Some o /\ id o = i.
Proof.
  cbv zeta. split; [reflexivity|].
  apply (toggles_from_scene_stay_in_scene
           [("o3", true); ("o1", true); ("o3", false)]%string
           (world_of (resume (loadScene "s3" (fresh Sample.page))
                        (Sample.loaded Sample.scene3)))
           (s := Sample.scene3) eq_refl).
  - intros i [].
  - intros c Hc. cbn in Hc.
    destruct Hc as [<-|[<-|[<-|[]]]]; cbn; auto.
Defined.
